(** * FetchOPC: subtree discovery and extraction over an OPC-UA address space

    A shallow embedding of [extensions/opc/src/fetchopc.cpp]
    ([FetchOPCProcessor]): the two-phase life cycle ([onSchedule], then
    repeated [onTrigger]), the visitor [nodeFoundCallBack] and the record
    emitter [OPCData2FlowFile].

    The processor's fields, the process session and every call made to a
    collaborator (logger, connection, session, scheduler) are threaded
    through a state-and-exception monad; collaborators whose code lives
    outside this file answer through the record [Collaborators]. *)

From Stdlib Require Import ZArith Lia Ascii String.
From stdpp Require Import base option list strings gmap fin_maps.

Local Open Scope string_scope.
Local Open Scope Z_scope.
Local Open Scope list_scope.

(** ** Strings: [c_str], printf-style formatting, [std::stoi] *)

Module Str.

(** [s.c_str()] read as a C string: the characters before the first NUL. *)
Fixpoint c_str (s : string) : string :=
  match s with
  | EmptyString => EmptyString
  | String c rest =>
      if Ascii.eqb c Ascii.zero then EmptyString else String c (c_str rest)
  end.

(** The formatting the logger ends in ([snprintf]), restricted to the
    only conversion the source uses, [%s]: each [%s] consumes the next
    argument; arguments left over are dropped.  The arguments are C
    strings: a [const char*] is passed as it is, and a [std::string] is
    passed as its [c_str()], so that its text ends at the first NUL; the
    calls below write that conversion out with [c_str], whether the
    source spells it ([nodeID_.c_str()]) or leaves it to the logger
    (a [std::string] handed to [log_warn] or [log_info]). *)
Fixpoint format (fmt : string) (args : list string) : string :=
  match fmt with
  | EmptyString => EmptyString
  | String "%"%char (String "s"%char rest) =>
      match args with
      | a :: args' => a +:+ format rest args'
      | [] => format rest []
      end
  | String c rest => String c (format rest args)
  end.

(** [isspace] in the C locale. *)
Definition isspace (c : ascii) : bool :=
  let n := Ascii.nat_of_ascii c in
  (Nat.eqb n 32 || (Nat.leb 9 n && Nat.leb n 13))%bool.

Definition digit_of (c : ascii) : option Z :=
  let n := Z.of_nat (Ascii.nat_of_ascii c) in
  if (48 <=? n) && (n <=? 57) then Some (n - 48) else None.

Fixpoint skip_space (s : string) : string :=
  match s with
  | String c rest => if isspace c then skip_space rest else s
  | EmptyString => EmptyString
  end.

(** Longest run of decimal digits at the head of [s], accumulated. *)
Fixpoint read_digits (s : string) (acc : Z) : Z :=
  match s with
  | String c rest =>
      match digit_of c with
      | Some d => read_digits rest (10 * acc + d)
      | None => acc
      end
  | EmptyString => acc
  end.

Definition INT_MIN : Z := - 2 ^ 31.
Definition INT_MAX : Z := 2 ^ 31 - 1.

Inductive stoi_error := invalid_argument | out_of_range.

(** [std::stoi(s)] (base 10): leading white space is skipped, an optional
    sign is read, then the longest run of digits; trailing characters are
    ignored.  No digit: [std::invalid_argument]; a value that does not
    fit [int]: [std::out_of_range]. *)
Definition stoi (s : string) : stoi_error + Z :=
  let s1 := skip_space s in
  let '(neg, s2) :=
    match s1 with
    | String "-"%char r => (true, r)
    | String "+"%char r => (false, r)
    | _ => (false, s1)
    end in
  match s2 with
  | String c _ =>
      match digit_of c with
      | Some _ =>
          let v := read_digits s2 0 in
          let v := if neg then - v else v in
          if (INT_MIN <=? v) && (v <=? INT_MAX) then inr v else inl out_of_range
      | None => inl invalid_argument
      end
  | EmptyString => inl invalid_argument
  end.

Definition stoi_what (e : stoi_error) : string :=
  match e with invalid_argument => "stoi" | out_of_range => "stoi" end.

End Str.

(** ** Data model *)

(** [opc::OPCNodeIDType], by the three values [fetchopc.cpp] uses. *)
Module opc.
Inductive OPCNodeIDType := Path | Int | String.
End opc.

(** [UA_NodeId] of the client library: a 16-bit namespace index and a
    numeric (32-bit unsigned) or string identifier. *)
Inductive UA_Identifier :=
  | UA_NODEIDTYPE_NUMERIC (numeric : Z)
  | UA_NODEIDTYPE_STRING (str : string).

Record UA_NodeId := mkNodeId {
  namespaceIndex : Z;
  identifier : UA_Identifier
}.

Definition to_UInt16 (z : Z) : Z := z mod 2 ^ 16.
Definition to_UInt32 (z : Z) : Z := z mod 2 ^ 32.

Inductive UA_NodeClass :=
  | UA_NODECLASS_UNSPECIFIED | UA_NODECLASS_OBJECT | UA_NODECLASS_VARIABLE
  | UA_NODECLASS_METHOD | UA_NODECLASS_OBJECTTYPE | UA_NODECLASS_VARIABLETYPE
  | UA_NODECLASS_REFERENCETYPE | UA_NODECLASS_DATATYPE | UA_NODECLASS_VIEW.

Definition is_variable (c : UA_NodeClass) : bool :=
  match c with UA_NODECLASS_VARIABLE => true | _ => false end.

(** [UA_ReferenceDescription], the fields the visitor reads. *)
Record UA_ReferenceDescription := mkRef {
  nodeId : UA_NodeId;
  browseName : string;
  nodeClass : UA_NodeClass
}.

Definition UA_StatusCode := Z.
Definition UA_STATUSCODE_GOOD : UA_StatusCode := 0.

(** Modelled from the spec: [opc::NodeData], declared in [opc.h], which is
    not part of this file.  Section 3 (ExtractedNodeData): the attributes,
    a mapping of name to text, and an optional value; here the value is
    the raw bytes [data], empty when there is none, which is how
    [OPCData2FlowFile] reads it ([opcnode.data.size() > 0]). *)
Record NodeData := mkNodeData {
  data : list Z;
  dataTypeID : Z;
  nd_attributes : gmap string string
}.

(** [std::exception], by the C string its [what()] returns: what the
    client, the session and [std::stoi] throw, and what the handlers of
    this file catch. *)
Record exception := mkExn { what : string }.

Inductive Relationship := Success | Failure.

(** A flow file record held by the session: attributes and content. *)
Record FlowFileRecord := mkFlowFile {
  ff_attributes : gmap string string;
  ff_content : option string
}.

(** The process session: the records it has created, addressed by handle
    (position), and the transfers recorded so far, oldest first. *)
Record ProcessSession := mkSession {
  flowfiles : list FlowFileRecord;
  transfers : list (nat * Relationship)
}.

Inductive LogLevel := TRACE | DEBUG | INFO | WARN | ERROR.

(** Every call that leaves the processor, in the order it is made. *)
Inductive Event :=
  | EvLog (lvl : LogLevel) (msg : string)
  | EvYield
  | EvBaseOnSchedule
  | EvReconnect
  | EvTranslate (path : string)
  | EvTraverse (root : UA_NodeId) (basePath : string) (maxDepth : N)
  | EvGetNodeData (ref : UA_ReferenceDescription)
  | EvCreate
  | EvSetAttribute (h : nat) (key value : string)
  | EvWrite (h : nat) (payload : string)
  | EvTransfer (h : nat) (rel : Relationship).

(** The fields of [FetchOPCProcessor] that [fetchopc.cpp] reads and
    writes (with [configOK_] inherited from [BaseOPCProcessor]).
    [onTriggerMutex_] is [true] while an invocation of [onTrigger] owns
    the mutex.  The counters are kept as unbounded naturals: their
    declaration is in [fetchopc.h], which is not part of this file. *)
Record FetchOPCProcessor := mkProc {
  configOK_ : bool;
  nodeID_ : string;
  nameSpaceIdx_ : Z;
  idType_ : opc.OPCNodeIDType;
  maxDepth_ : N;
  nodesFound_ : N;
  variablesFound_ : N;
  translatedNodeIDs_ : list UA_NodeId;
  onTriggerMutex_ : bool
}.

Record World := mkWorld {
  self : FetchOPCProcessor;
  session : ProcessSession;
  trace : list Event
}.

#[global] Instance OPCNodeIDType_eq_dec : EqDecision opc.OPCNodeIDType.
Proof. solve_decision. Defined.
#[global] Instance Relationship_eq_dec : EqDecision Relationship.
Proof. solve_decision. Defined.
#[global] Instance LogLevel_eq_dec : EqDecision LogLevel.
Proof. solve_decision. Defined.

(** ** Properties and the process context *)

(** [core::Property] as built by [PropertyBuilder]. *)
Record Property := mkProperty {
  getName : string;
  description : string;
  isRequired : bool;
  defaultValue : option string;
  allowableValues : list string
}.

Definition NodeID : Property :=
  mkProperty "Node ID" "Specifies the ID of the root node to traverse" true None [].

Definition NodeIDType : Property :=
  mkProperty "Node ID type" "Specifies the type of the provided node ID" true None
    ["Path"; "Int"; "String"].

Definition NameSpaceIndex : Property :=
  mkProperty "Namespace index"
    "The index of the namespace. Used only if node ID type is not path."
    false (Some "0") [].

Definition MaxDepth : Property :=
  mkProperty "Max depth" "Specifiec the max depth of browsing. 0 means unlimited."
    false (Some "0") [].

(** [core::ProcessContext] as [onSchedule] uses it: [getProperty(name, out)]
    at the three types of [out]; [None] is the [false] return, which
    leaves [out] as it was. *)
Record ProcessContext := mkContext {
  getProperty_string : string -> option string;
  getProperty_int32 : string -> option Z;
  getProperty_uint64 : string -> option N
}.

(** Modelled from the spec: the host framework's property lookup
    ([ProcessContext::getProperty] is not part of this file).  Section 6
    lists the configuration surface with its defaults ("namespace index:
    default 0", "max traversal depth: default 0"): a supported property
    the user configured answers with the configured text, one the user
    left out answers with its declared default when it has one, and the
    lookup fails otherwise. *)
Definition hostLookup (supported : list Property) (configured : gmap string string)
    (name : string) : option string :=
  match List.find (fun p => String.eqb (getName p) name) supported with
  | None => None
  | Some p =>
      match configured !! name with
      | Some v => Some v
      | None => defaultValue p
      end
  end.

Definition as_int32 (s : string) : option Z :=
  match Str.stoi s with inr v => Some v | inl _ => None end.

Definition as_uint64 (s : string) : option N :=
  match Str.stoi s with
  | inr v => if 0 <=? v then Some (Z.to_N v) else None
  | inl _ => None
  end.

Definition hostContext (supported : list Property) (configured : gmap string string)
    : ProcessContext :=
  {| getProperty_string := hostLookup supported configured;
     getProperty_int32 := fun name => hostLookup supported configured name ≫= as_int32;
     getProperty_uint64 := fun name => hostLookup supported configured name ≫= as_uint64 |}.

(** The properties [initialize] registers that belong to this class
    ([OPCServerEndPoint] and the base class's set are declared elsewhere
    and passed in as [baseOPCProperties]). *)
Definition initialize (baseOPCProperties : list Property) : list Property :=
  [NodeID; NodeIDType; NameSpaceIndex; MaxDepth] ++ baseOPCProperties.

(** ** Collaborators *)

(** The answers of the code around the processor, for one call of
    [onSchedule] or [onTrigger]. *)
Record Collaborators := mkCollab {
  (** [BaseOPCProcessor::onSchedule]: the value it leaves in [configOK_]. *)
  base_onSchedule : ProcessContext -> bool;
  (** [BaseOPCProcessor::reconnect]. *)
  reconnect : bool;
  (** Modelled from the spec: [resolve_path(path) -> sequence of
      ResolvedNodeReference or error] (section 6).  [inr ids]: status
      good, [ids] appended to the output vector; [inl sc]: status [sc],
      output vector untouched. *)
  translateBrowsePathsToNodeIdsRequest : string -> UA_StatusCode + list UA_NodeId;
  (** The references the client discovers below a root, with the path
      label it hands to the visitor, in discovery order. *)
  discovered : UA_NodeId -> string -> N -> list (UA_ReferenceDescription * string);
  (** [opc::Client::getNodeData]: the node's data, or a throw. *)
  getNodeData : UA_ReferenceDescription -> exception + NodeData;
  (** [opc::nodeValue2String]: the payload text, or a throw. *)
  nodeValue2String : NodeData -> exception + string;
  (** [session->create()]: the attributes of the fresh record, or
      [None] for a null handle; the argument is the number of records
      the session holds. *)
  create : nat -> option (gmap string string);
  (** [session->write(flowFile, &callback)]: [Some e] when it throws. *)
  write : nat -> string -> option exception;
  UA_StatusCode_name : UA_StatusCode -> string
}.

(** ** The state-and-exception monad *)

Inductive Result (A : Type) :=
  | Ok (a : A)
  | Throw (e : exception).
Arguments Ok {A} a.
Arguments Throw {A} e.

Definition M (A : Type) : Type := World -> Result A * World.

Definition ret {A} (a : A) : M A := fun w => (Ok a, w).

Definition bind {A B} (m : M A) (k : A -> M B) : M B :=
  fun w => match m w with
           | (Ok a, w') => k a w'
           | (Throw e, w') => (Throw e, w')
           end.

Definition throw {A} (e : exception) : M A := fun w => (Throw e, w).

(** [try { m } catch (const std::exception& e) { h e }]: what [m] did
    before it threw stays done. *)
Definition try_catch {A} (m : M A) (h : exception -> M A) : M A :=
  fun w => match m w with
           | (Ok a, w') => (Ok a, w')
           | (Throw e, w') => h e w'
           end.

(** Scope exit: [cleanup] runs whether [m] returns or throws. *)
Definition finally {A} (m : M A) (cleanup : World -> World) : M A :=
  fun w => let '(r, w') := m w in (r, cleanup w').

Declare Scope opc_scope.
Delimit Scope opc_scope with opc.
Notation "x <- m ;; k" := (bind m (fun x => k))
  (at level 100, m at next level, right associativity) : opc_scope.
Notation "m ;; k" := (bind m (fun _ => k))
  (at level 100, right associativity) : opc_scope.
Local Open Scope opc_scope.

Definition get_self : M FetchOPCProcessor := fun w => (Ok (self w), w).

Definition modify_self (f : FetchOPCProcessor -> FetchOPCProcessor) : M unit :=
  fun w => (Ok tt, mkWorld (f (self w)) (session w) (trace w)).

Definition get_session : M ProcessSession := fun w => (Ok (session w), w).

Definition modify_session (f : ProcessSession -> ProcessSession) : M unit :=
  fun w => (Ok tt, mkWorld (self w) (f (session w)) (trace w)).

Definition emit (e : Event) : M unit :=
  fun w => (Ok tt, mkWorld (self w) (session w) (trace w ++ [e])).

Fixpoint for_each {A} (l : list A) (body : A -> M unit) : M unit :=
  match l with
  | [] => ret tt
  | x :: rest => body x ;; for_each rest body
  end.

(** Field updates. *)
Definition set_configOK (b : bool) (p : FetchOPCProcessor) : FetchOPCProcessor :=
  mkProc b (nodeID_ p) (nameSpaceIdx_ p) (idType_ p) (maxDepth_ p) (nodesFound_ p)
    (variablesFound_ p) (translatedNodeIDs_ p) (onTriggerMutex_ p).
Definition set_nodeID (s : string) (p : FetchOPCProcessor) : FetchOPCProcessor :=
  mkProc (configOK_ p) s (nameSpaceIdx_ p) (idType_ p) (maxDepth_ p) (nodesFound_ p)
    (variablesFound_ p) (translatedNodeIDs_ p) (onTriggerMutex_ p).
Definition set_nameSpaceIdx (z : Z) (p : FetchOPCProcessor) : FetchOPCProcessor :=
  mkProc (configOK_ p) (nodeID_ p) z (idType_ p) (maxDepth_ p) (nodesFound_ p)
    (variablesFound_ p) (translatedNodeIDs_ p) (onTriggerMutex_ p).
Definition set_idType (t : opc.OPCNodeIDType) (p : FetchOPCProcessor) : FetchOPCProcessor :=
  mkProc (configOK_ p) (nodeID_ p) (nameSpaceIdx_ p) t (maxDepth_ p) (nodesFound_ p)
    (variablesFound_ p) (translatedNodeIDs_ p) (onTriggerMutex_ p).
Definition set_maxDepth (d : N) (p : FetchOPCProcessor) : FetchOPCProcessor :=
  mkProc (configOK_ p) (nodeID_ p) (nameSpaceIdx_ p) (idType_ p) d (nodesFound_ p)
    (variablesFound_ p) (translatedNodeIDs_ p) (onTriggerMutex_ p).
Definition set_nodesFound (n : N) (p : FetchOPCProcessor) : FetchOPCProcessor :=
  mkProc (configOK_ p) (nodeID_ p) (nameSpaceIdx_ p) (idType_ p) (maxDepth_ p) n
    (variablesFound_ p) (translatedNodeIDs_ p) (onTriggerMutex_ p).
Definition set_variablesFound (n : N) (p : FetchOPCProcessor) : FetchOPCProcessor :=
  mkProc (configOK_ p) (nodeID_ p) (nameSpaceIdx_ p) (idType_ p) (maxDepth_ p)
    (nodesFound_ p) n (translatedNodeIDs_ p) (onTriggerMutex_ p).
Definition set_translatedNodeIDs (l : list UA_NodeId) (p : FetchOPCProcessor)
    : FetchOPCProcessor :=
  mkProc (configOK_ p) (nodeID_ p) (nameSpaceIdx_ p) (idType_ p) (maxDepth_ p)
    (nodesFound_ p) (variablesFound_ p) l (onTriggerMutex_ p).
Definition set_onTriggerMutex (b : bool) (p : FetchOPCProcessor) : FetchOPCProcessor :=
  mkProc (configOK_ p) (nodeID_ p) (nameSpaceIdx_ p) (idType_ p) (maxDepth_ p)
    (nodesFound_ p) (variablesFound_ p) (translatedNodeIDs_ p) b.

(** ** Logger, scheduler, session and connection calls *)

Definition log (lvl : LogLevel) (msg : string) : M unit := emit (EvLog lvl msg).

(** [Processor::yield()]. *)
Definition yield : M unit := emit EvYield.

(** [session->create()]. *)
Definition session_create (env : Collaborators) : M (option nat) :=
  emit EvCreate ;;
  s <- get_session ;;
  match create env (length (flowfiles s)) with
  | None => ret None
  | Some attrs =>
      modify_session (fun s => mkSession (flowfiles s ++ [mkFlowFile attrs None]) (transfers s)) ;;
      ret (Some (length (flowfiles s)))
  end.

(** [flowFile->setAttribute(key, value)]. *)
Definition setAttribute (h : nat) (key value : string) : M unit :=
  emit (EvSetAttribute h key value) ;;
  modify_session (fun s =>
    mkSession
      (alter (fun r => mkFlowFile (<[key := value]> (ff_attributes r)) (ff_content r)) h
         (flowfiles s))
      (transfers s)).

(** [flowFile->getAttribute(key, out)]: [out] keeps its value (here the
    empty string it was declared with) when the key is absent. *)
Definition getAttribute (h : nat) (key : string) : M string :=
  s <- get_session ;;
  ret (default "" (flowfiles s !! h ≫= fun r => ff_attributes r !! key)).

(** [session->write(flowFile, &callback)]. *)
Definition session_write (env : Collaborators) (h : nat) (payload : string) : M unit :=
  emit (EvWrite h payload) ;;
  match write env h payload with
  | Some e => throw e
  | None =>
      modify_session (fun s =>
        mkSession (alter (fun r => mkFlowFile (ff_attributes r) (Some payload)) h (flowfiles s))
          (transfers s))
  end.

(** [session->transfer(flowFile, relationship)]. *)
Definition transfer (h : nat) (rel : Relationship) : M unit :=
  emit (EvTransfer h rel) ;;
  modify_session (fun s => mkSession (flowfiles s) (transfers s ++ [(h, rel)])).

(** [connection_->getNodeData(ref)]. *)
Definition connection_getNodeData (env : Collaborators) (ref : UA_ReferenceDescription)
    : M NodeData :=
  emit (EvGetNodeData ref) ;;
  match getNodeData env ref with
  | inr nd => ret nd
  | inl e => throw e
  end.

(** [connection_->translateBrowsePathsToNodeIdsRequest(nodeID_,
    translatedNodeIDs_, logger_)]: the ids found are pushed onto
    [translatedNodeIDs_]. *)
Definition connection_translate (env : Collaborators) : M UA_StatusCode :=
  p <- get_self ;;
  emit (EvTranslate (nodeID_ p)) ;;
  match translateBrowsePathsToNodeIdsRequest env (nodeID_ p) with
  | inr ids =>
      modify_self (set_translatedNodeIDs (translatedNodeIDs_ p ++ ids)) ;;
      ret UA_STATUSCODE_GOOD
  | inl sc => ret sc
  end.

(** Modelled from the spec: the traversal engine of the client
    ([opc::Client::traverse] is not part of this file).  Section 4.2: the
    visitor is invoked exactly once per discovered node, in the order the
    remote source reports them, and a visitor answering "stop" aborts the
    remainder of that traversal. *)
Fixpoint visit_all (f : UA_ReferenceDescription -> string -> M bool)
    (found : list (UA_ReferenceDescription * string)) : M unit :=
  match found with
  | [] => ret tt
  | (ref, path) :: rest =>
      continue <- f ref path ;;
      if continue : bool then visit_all f rest else ret tt
  end.

Definition connection_traverse (env : Collaborators) (root : UA_NodeId)
    (f : UA_ReferenceDescription -> string -> M bool) (basePath : string) (maxDepth : N)
    : M unit :=
  emit (EvTraverse root basePath maxDepth) ;;
  visit_all f (discovered env root basePath maxDepth).

(** ** The processor *)

(** [FetchOPCProcessor::OPCData2FlowFile]. *)
Definition OPCData2FlowFile (env : Collaborators) (opcnode : NodeData)
    (context : ProcessContext) : M unit :=
  flowFile <- session_create env ;;
  match flowFile with
  | None => log ERROR "Failed to create flowfile!"
  | Some flowFile =>
      for_each (map_to_list (nd_attributes opcnode))
        (fun attr => setAttribute flowFile attr.1 attr.2) ;;
      written <-
        (if (0 <? length (data opcnode))%nat then
           try_catch
             (match nodeValue2String env opcnode with
              | inr payload => session_write env flowFile payload
              | inl e => throw e
              end ;;
              ret true)
             (fun e =>
                browsename <- getAttribute flowFile "Browsename" ;;
                log INFO (Str.format "Failed to extract data of OPC node %s: %s"
                            [Str.c_str browsename; what e]) ;;
                transfer flowFile Failure ;;
                ret false)
         else ret true) ;;
      if written : bool then transfer flowFile Success else ret tt
  end.

(** [FetchOPCProcessor::nodeFoundCallBack]. *)
Definition nodeFoundCallBack (env : Collaborators) (context : ProcessContext)
    (ref : UA_ReferenceDescription) (path : string) : M bool :=
  modify_self (fun p => set_nodesFound (nodesFound_ p + 1)%N p) ;;
  (if is_variable (nodeClass ref) then
     try_catch
       (nodedata <- connection_getNodeData env ref ;;
        OPCData2FlowFile env nodedata context ;;
        modify_self (fun p => set_variablesFound (variablesFound_ p + 1)%N p))
       (fun exception_ =>
          let browsename := browseName ref in
          log WARN (Str.format "Caught Exception while trying to get data from node &s: %s"
                      [Str.c_str (path +:+ "/" +:+ browsename); what exception_]))
   else ret tt) ;;
  ret true.

(** [FetchOPCProcessor::onSchedule]. *)
Definition onSchedule (env : Collaborators) (context : ProcessContext) : M unit :=
  log TRACE "FetchOPCProcessor::onSchedule" ;;
  modify_self (set_translatedNodeIDs []) ;;
  emit EvBaseOnSchedule ;;
  modify_self (set_configOK (base_onSchedule env context)) ;;
  p <- get_self ;;
  if negb (configOK_ p) then ret tt
  else
    modify_self (set_configOK false) ;;
    match getProperty_string context (getName NodeID) with
    | Some v => modify_self (set_nodeID v)
    | None => ret tt
    end ;;
    let value := default "" (getProperty_string context (getName NodeIDType)) in
    modify_self (set_maxDepth 0%N) ;;
    match getProperty_uint64 context (getName MaxDepth) with
    | Some d => modify_self (set_maxDepth d)
    | None => ret tt
    end ;;
    (if String.eqb value "String" then modify_self (set_idType opc.String)
     else if String.eqb value "Int" then modify_self (set_idType opc.Int)
     else if String.eqb value "Path" then modify_self (set_idType opc.Path)
     else log ERROR (Str.format "%s is not a valid node ID type!" [Str.c_str value])) ;;
    p <- get_self ;;
    parsed <-
      (if decide (idType_ p = opc.Int) then
         match Str.stoi (nodeID_ p) with
         | inr t => ret true
         | inl _ =>
             log ERROR (Str.format "%s cannot be used as an int type node ID"
                          [Str.c_str (nodeID_ p)]) ;;
             ret false
         end
       else ret true) ;;
    if negb parsed then ret tt
    else
      indexed <-
        (if decide (idType_ p <> opc.Path) then
           match getProperty_int32 context (getName NameSpaceIndex) with
           | Some i => modify_self (set_nameSpaceIdx i) ;; ret true
           | None =>
               log ERROR (Str.format "%s is mandatory in case %s is not Path"
                            [Str.c_str (getName NameSpaceIndex);
                             Str.c_str (getName NodeIDType)]) ;;
               ret false
           end
         else ret true) ;;
      if negb indexed then ret tt
      else modify_self (set_configOK true).

(** The part of [onTrigger] that runs with the mutex owned. *)
Definition onTrigger_locked (env : Collaborators) (context : ProcessContext) : M unit :=
  emit EvReconnect ;;
  if negb (reconnect env) then yield
  else
    modify_self (set_nodesFound 0%N) ;;
    modify_self (set_variablesFound 0%N) ;;
    let f := nodeFoundCallBack env context in
    p <- get_self ;;
    traversed <-
      match idType_ p with
      | opc.Int =>
          numeric <-
            match Str.stoi (nodeID_ p) with
            | inr n => ret (to_UInt32 n)
            | inl e => throw (mkExn (Str.stoi_what e))
            end ;;
          connection_traverse env
            (mkNodeId (to_UInt16 (nameSpaceIdx_ p)) (UA_NODEIDTYPE_NUMERIC numeric))
            f "" (maxDepth_ p) ;;
          ret true
      | opc.String =>
          connection_traverse env
            (mkNodeId (to_UInt16 (nameSpaceIdx_ p))
               (UA_NODEIDTYPE_STRING (Str.c_str (nodeID_ p))))
            f "" (maxDepth_ p) ;;
          ret true
      | opc.Path =>
          resolved <-
            (if bool_decide (translatedNodeIDs_ p = []) then
               sc <- connection_translate env ;;
               if negb (sc =? UA_STATUSCODE_GOOD) then
                 log ERROR
                   (Str.format
                      "Failed to translate %s to node id, no flow files will be generated (%s)"
                      [Str.c_str (nodeID_ p); UA_StatusCode_name env sc]) ;;
                 yield ;;
                 ret false
               else ret true
             else ret true) ;;
          if negb resolved then ret false
          else
            p <- get_self ;;
            for_each (translatedNodeIDs_ p)
              (fun nodeID => connection_traverse env nodeID f (nodeID_ p) (maxDepth_ p)) ;;
            ret true
      end ;;
    if negb traversed then ret tt
    else
      p <- get_self ;;
      if (nodesFound_ p =? 0)%N then
        log WARN "Connected to OPC server, but no variable nodes were not found. Configuration might be incorrect! Yielding..." ;;
        yield
      else if (variablesFound_ p =? 0)%N then
        log WARN "Found no variables when traversing the specified node. No flowfiles are generated. Yielding..." ;;
        yield
      else ret tt.

(** [FetchOPCProcessor::onTrigger]. *)
Definition onTrigger (env : Collaborators) (context : ProcessContext) : M unit :=
  p <- get_self ;;
  if negb (configOK_ p) then
    log ERROR "This processor was not configured properly, yielding. Please check for previous errors in the logs!" ;;
    yield
  else
    log TRACE "FetchOPCProcessor::onTrigger" ;;
    if onTriggerMutex_ p then
      log WARN "processor was triggered before previous listing finished, configuration should be revised!"
    else
      modify_self (set_onTriggerMutex true) ;;
      finally (onTrigger_locked env context)
        (fun w => mkWorld (set_onTriggerMutex false (self w)) (session w) (trace w)).

(** ** Vocabulary of the properties *)

(** The attributes of a record after the attribute-copy loop over [l]. *)
Definition set_attrs (l : list (string * string)) (r : FlowFileRecord) : FlowFileRecord :=
  mkFlowFile (foldl (fun m kv => <[kv.1 := kv.2]> m) (ff_attributes r) l) (ff_content r).

(** The events a traversal may add: everything but yields, connection
    set-up and path resolution. *)
Definition is_walk_event (e : Event) : bool :=
  match e with
  | EvYield | EvBaseOnSchedule | EvReconnect | EvTranslate _ => false
  | _ => true
  end.

Definition walk_events (evs : list Event) : Prop :=
  Forall (fun e => is_walk_event e = true) evs.

(** The events one visit may add: those of a traversal, short of starting
    another traversal. *)
Definition is_visit_event (e : Event) : bool :=
  match e with
  | EvTraverse _ _ _ => false
  | _ => is_walk_event e
  end.

Definition visit_events (evs : list Event) : Prop :=
  Forall (fun e => is_visit_event e = true) evs.

(** The roots of the traversals started in a trace, in order. *)
Fixpoint traversed_roots (t : list Event) : list UA_NodeId :=
  match t with
  | [] => []
  | EvTraverse root _ _ :: rest => root :: traversed_roots rest
  | _ :: rest => traversed_roots rest
  end.

(** Whether the guarded block of [OPCData2FlowFile] (conversion of the
    value, then [session->write]) throws for record [h]. *)
Definition payload_throws (env : Collaborators) (h : nat) (opcnode : NodeData) : bool :=
  match nodeValue2String env opcnode with
  | inl _ => true
  | inr payload => bool_decide (is_Some (write env h payload))
  end.

(** The outlet [OPCData2FlowFile] picks for record [h]. *)
Definition outlet (env : Collaborators) (h : nat) (opcnode : NodeData) : Relationship :=
  if (0 <? length (data opcnode))%nat && payload_throws env h opcnode
  then Failure else Success.

Definition count_node (p : FetchOPCProcessor) : FetchOPCProcessor :=
  set_nodesFound (nodesFound_ p + 1)%N p.

Definition count_variable (p : FetchOPCProcessor) : FetchOPCProcessor :=
  set_variablesFound (variablesFound_ p + 1)%N p.

(** The fields a traversal leaves alone: everything but the counters. *)
Definition same_configuration (p p' : FetchOPCProcessor) : Prop :=
  configOK_ p' = configOK_ p /\ nodeID_ p' = nodeID_ p /\
  nameSpaceIdx_ p' = nameSpaceIdx_ p /\ idType_ p' = idType_ p /\
  maxDepth_ p' = maxDepth_ p /\ translatedNodeIDs_ p' = translatedNodeIDs_ p /\
  onTriggerMutex_ p' = onTriggerMutex_ p.

(** [walked env roots k w w']: [w'] is [w] after traversals from [roots]
    handed [k] references to the visitor. *)
Record walked (env : Collaborators) (roots : list UA_NodeId) (k : nat) (w w' : World)
    : Prop := mkWalked {
  walked_config : same_configuration (self w) (self w');
  walked_nodes : nodesFound_ (self w') = (nodesFound_ (self w) + N.of_nat k)%N;
  walked_counts :
    exists dv dt : nat,
      variablesFound_ (self w') = (variablesFound_ (self w) + N.of_nat dv)%N /\
      length (transfers (session w')) = (length (transfers (session w)) + dt)%nat /\
      (dt <= dv)%nat /\ (dv <= k)%nat /\
      ((forall n, create env n <> None) -> dt = dv);
  walked_trace :
    exists evs,
      trace w' = trace w ++ evs /\ walk_events evs /\ traversed_roots evs = roots
}.

(** All references found below a list of roots, root after root. *)
Definition discovered_below (env : Collaborators) (roots : list UA_NodeId)
    (basePath : string) (maxDepth : N) : list (UA_ReferenceDescription * string) :=
  concat ((fun root => discovered env root basePath maxDepth) <$> roots).

(** The counters as [onTrigger] resets them before the traversal. *)
Definition start_walk (p : FetchOPCProcessor) : FetchOPCProcessor :=
  set_variablesFound 0%N (set_nodesFound 0%N p).

(** The world once [onTrigger] owns the mutex, has reconnected and has
    reset the counters. *)
Definition connected (w : World) : World :=
  mkWorld (start_walk (self w)) (session w) (trace w ++ [EvReconnect]).

Definition warn_no_nodes : string :=
  "Connected to OPC server, but no variable nodes were not found. Configuration might be incorrect! Yielding...".

Definition warn_no_variables : string :=
  "Found no variables when traversing the specified node. No flowfiles are generated. Yielding...".

(** What the end of [onTrigger] adds to the trace, by the counters. *)
Definition conclusion (p : FetchOPCProcessor) : list Event :=
  if (nodesFound_ p =? 0)%N then [EvLog WARN warn_no_nodes; EvYield]
  else if (variablesFound_ p =? 0)%N then [EvLog WARN warn_no_variables; EvYield]
  else [].

Definition conclude (w : World) : World :=
  mkWorld (self w) (session w) (trace w ++ conclusion (self w)).

(** How a connected invocation gets to its roots: the identifier built
    from the configuration ([Int], [String]), the cached translation of
    the path, or a fresh translation, which fills the cache.  The last
    argument is the world in which the first traversal starts. *)
Inductive enters_traversal (env : Collaborators) (w0 : World)
    : list UA_NodeId -> string -> World -> Prop :=
  | enter_int n :
      idType_ (self w0) = opc.Int ->
      Str.stoi (nodeID_ (self w0)) = inr n ->
      enters_traversal env w0
        [mkNodeId (to_UInt16 (nameSpaceIdx_ (self w0))) (UA_NODEIDTYPE_NUMERIC (to_UInt32 n))]
        "" w0
  | enter_string :
      idType_ (self w0) = opc.String ->
      enters_traversal env w0
        [mkNodeId (to_UInt16 (nameSpaceIdx_ (self w0)))
           (UA_NODEIDTYPE_STRING (Str.c_str (nodeID_ (self w0))))]
        "" w0
  | enter_cached :
      idType_ (self w0) = opc.Path ->
      translatedNodeIDs_ (self w0) <> [] ->
      enters_traversal env w0 (translatedNodeIDs_ (self w0)) (nodeID_ (self w0)) w0
  | enter_translated ids :
      idType_ (self w0) = opc.Path ->
      translatedNodeIDs_ (self w0) = [] ->
      translateBrowsePathsToNodeIdsRequest env (nodeID_ (self w0)) = inr ids ->
      enters_traversal env w0 ids (nodeID_ (self w0))
        (mkWorld (set_translatedNodeIDs ids (self w0)) (session w0)
           (trace w0 ++ [EvTranslate (nodeID_ (self w0))]))
  | enter_nothing :
      idType_ (self w0) = opc.Path ->
      translatedNodeIDs_ (self w0) = [] ->
      translateBrowsePathsToNodeIdsRequest env (nodeID_ (self w0)) = inl UA_STATUSCODE_GOOD ->
      enters_traversal env w0 [] (nodeID_ (self w0))
        (mkWorld (self w0) (session w0) (trace w0 ++ [EvTranslate (nodeID_ (self w0))])).

Definition is_yield (e : Event) : bool :=
  match e with EvYield => true | _ => false end.
Definition is_reconnect (e : Event) : bool :=
  match e with EvReconnect => true | _ => false end.
Definition is_translate (e : Event) : bool :=
  match e with EvTranslate _ => true | _ => false end.

(** Number of events of a kind in a trace. *)
Definition count (kind : Event -> bool) (t : list Event) : nat :=
  length (List.filter kind t).

Definition acquired (w : World) : World :=
  mkWorld (set_onTriggerMutex true (self w)) (session w)
    (trace w ++ [EvLog TRACE "FetchOPCProcessor::onTrigger"]).

Definition released (w : World) : World :=
  mkWorld (set_onTriggerMutex false (self w)) (session w) (trace w).

(** The processor states a scheduled processor goes through: what
    [onSchedule] leaves, and from there any number of [onTrigger] calls
    and reschedules; other invocations may take and release the mutex in
    between. *)
Inductive scheduled : FetchOPCProcessor -> Prop :=
  | scheduled_onSchedule env context w r w' :
      onSchedule env context w = (r, w') -> scheduled (self w')
  | scheduled_onTrigger env context w r w' :
      scheduled (self w) -> onTrigger env context w = (r, w') -> scheduled (self w')
  | scheduled_mutex p b :
      scheduled p -> scheduled (set_onTriggerMutex b p).

(** ** A small plant, for concrete runs *)

Module Plant.

Definition fresh : FetchOPCProcessor :=
  mkProc false "" 0 opc.Path 0%N 0%N 0%N [] false.

Definition start : World := mkWorld fresh (mkSession [] []) [].

Definition variable (name : string) : UA_ReferenceDescription :=
  mkRef (mkNodeId 2 (UA_NODEIDTYPE_STRING name)) name UA_NODECLASS_VARIABLE.

Definition folder (name : string) : UA_ReferenceDescription :=
  mkRef (mkNodeId 2 (UA_NODEIDTYPE_STRING name)) name UA_NODECLASS_OBJECT.

Definition reading (name : string) : NodeData :=
  mkNodeData [0; 0; 172; 65] 10 {[ "Browsename" := name; "Typename" := "Float" ]}.

Definition sensors : UA_NodeId := mkNodeId 2 (UA_NODEIDTYPE_NUMERIC 1001).

(** A browse name of three bytes with a NUL in the middle: [t], NUL, [x]. *)
Definition t_nul_x : string := String "t" (String Ascii.zero "x").

Definition UA_STATUSCODE_BADNODATAAVAILABLE : UA_StatusCode := 2157641728.

Definition among (names : list string) (name : string) : bool :=
  existsb (String.eqb name) names.

(** A server with one folder and four variables below any root.  Reading
    fails for the variables named in [unreadable], converting the value
    fails for those in [unconvertible], and the session hands out null
    records when [exhausted]. *)
Definition server (unreadable unconvertible : list string) (exhausted : bool)
    : Collaborators :=
  {| base_onSchedule := fun _ => true;
     reconnect := true;
     translateBrowsePathsToNodeIdsRequest := fun path =>
       if String.eqb path "/Sensors" then inr [sensors]
       else inl UA_STATUSCODE_BADNODATAAVAILABLE;
     discovered := fun _ basePath _ =>
       [(folder "Line1", basePath);
        (variable "t1", basePath +:+ "/Line1");
        (variable "t2", basePath +:+ "/Line1");
        (variable "t3", basePath +:+ "/Line1");
        (variable "t4", basePath +:+ "/Line1")];
     getNodeData := fun ref =>
       if among unreadable (browseName ref) then inl (mkExn "BadNodeIdUnknown")
       else inr (reading (browseName ref));
     nodeValue2String := fun nodedata =>
       if among unconvertible (default "" (nd_attributes nodedata !! "Browsename"))
       then inl (mkExn "Data type is not supported")
       else inr "21.5";
     create := fun _ => if exhausted then None else Some ∅;
     write := fun _ _ => None;
     UA_StatusCode_name := fun _ => "BadNoDataAvailable" |}.

(** A server whose address space holds a single variable. *)
Definition single (exhausted : bool) : Collaborators :=
  {| base_onSchedule := fun _ => true;
     reconnect := true;
     translateBrowsePathsToNodeIdsRequest := fun _ => inl UA_STATUSCODE_BADNODATAAVAILABLE;
     discovered := fun _ basePath _ => [(variable "t1", basePath)];
     getNodeData := fun ref => inr (reading (browseName ref));
     nodeValue2String := fun _ => inr "21.5";
     create := fun _ => if exhausted then None else Some ∅;
     write := fun _ _ => None;
     UA_StatusCode_name := fun _ => "BadNoDataAvailable" |}.

Definition configuration (settings : gmap string string) : ProcessContext :=
  hostContext (initialize []) settings.

Definition by_path : ProcessContext :=
  configuration {[ "Node ID" := "/Sensors"; "Node ID type" := "Path" ]}.

Definition by_int_no_index : ProcessContext :=
  configuration {[ "Node ID" := "42"; "Node ID type" := "Int" ]}.

Definition by_bogus_type : ProcessContext :=
  configuration {[ "Node ID" := "/Sensors"; "Node ID type" := "Bogus" ]}.

(** A context that knows no namespace index at all. *)
Definition without_index : ProcessContext :=
  hostContext [NodeID; NodeIDType; MaxDepth]
    {[ "Node ID" := "42"; "Node ID type" := "Int" ]}.

(** The world after [onSchedule] with [context], from [start]. *)
Definition scheduled_with (env : Collaborators) (context : ProcessContext) : World :=
  (onSchedule env context start).2.

End Plant.

(** ** Vocabulary of the further properties *)

(** The name under which [onSchedule] recognizes a node-identifier type. *)
Definition type_name (t : opc.OPCNodeIDType) : string :=
  match t with
  | opc.Path => "Path"
  | opc.Int => "Int"
  | opc.String => "String"
  end.

(** Whether [std::stoi] accepts a node id. *)
Definition parses (s : string) : bool :=
  match Str.stoi s with inr _ => true | inl _ => false end.

(** The roots an invocation traverses from, read off [onTrigger]: the
    identifier built from the configuration, the cached references, or,
    on an empty cache, what the translation returns. *)
Definition trigger_roots (env : Collaborators) (p : FetchOPCProcessor) : list UA_NodeId :=
  match idType_ p with
  | opc.Int =>
      match Str.stoi (nodeID_ p) with
      | inr n => [mkNodeId (to_UInt16 (nameSpaceIdx_ p)) (UA_NODEIDTYPE_NUMERIC (to_UInt32 n))]
      | inl _ => []
      end
  | opc.String =>
      [mkNodeId (to_UInt16 (nameSpaceIdx_ p)) (UA_NODEIDTYPE_STRING (Str.c_str (nodeID_ p)))]
  | opc.Path =>
      match translatedNodeIDs_ p with
      | [] =>
          match translateBrowsePathsToNodeIdsRequest env (nodeID_ p) with
          | inr ids => ids
          | inl _ => []
          end
      | cached => cached
      end
  end.

(** The path label [onTrigger] hands to the traversal. *)
Definition trigger_label (p : FetchOPCProcessor) : string :=
  match idType_ p with
  | opc.Path => nodeID_ p
  | _ => ""
  end.

(** An invocation that gets to its roots: valid configuration, free
    mutex, connection up, an [Int] identifier that parses, and, for a
    path not yet cached, a translation with a good status. *)
Definition reaches_roots (env : Collaborators) (w : World) : Prop :=
  configOK_ (self w) = true /\
  onTriggerMutex_ (self w) = false /\
  reconnect env = true /\
  (idType_ (self w) = opc.Int -> exists n, Str.stoi (nodeID_ (self w)) = inr n) /\
  (idType_ (self w) = opc.Path -> translatedNodeIDs_ (self w) = [] ->
   forall sc, translateBrowsePathsToNodeIdsRequest env (nodeID_ (self w)) = inl sc ->
              sc = UA_STATUSCODE_GOOD).

(** A reference whose visit counts as a variable found: a variable whose
    data can be read. *)
Definition readable (env : Collaborators) (ref : UA_ReferenceDescription) : bool :=
  is_variable (nodeClass ref) &&
  match getNodeData env ref with inr _ => true | inl _ => false end.

Definition count_readable (env : Collaborators)
    (found : list (UA_ReferenceDescription * string)) : nat :=
  length (List.filter (fun d => readable env d.1) found).

(** The variable-class references of a discovery list, in order. *)
Definition variables_of (found : list (UA_ReferenceDescription * string))
    : list UA_ReferenceDescription :=
  (List.filter (fun d => is_variable (nodeClass d.1)) found).*1.

(** The traversals started in a trace, with label and depth bound. *)
Fixpoint traverse_calls (t : list Event) : list (UA_NodeId * string * N) :=
  match t with
  | [] => []
  | EvTraverse root basePath maxDepth :: rest =>
      (root, basePath, maxDepth) :: traverse_calls rest
  | _ :: rest => traverse_calls rest
  end.

(** The references whose data was requested in a trace. *)
Fixpoint reads (t : list Event) : list UA_ReferenceDescription :=
  match t with
  | [] => []
  | EvGetNodeData ref :: rest => ref :: reads rest
  | _ :: rest => reads rest
  end.

(** The payload writes attempted in a trace. *)
Fixpoint writes (t : list Event) : list (nat * string) :=
  match t with
  | [] => []
  | EvWrite h payload :: rest => (h, payload) :: writes rest
  | _ :: rest => writes rest
  end.

(** Every record the session created has been routed, once, in the
    order of creation. *)
Definition routed_once (s : ProcessSession) : Prop :=
  (transfers s).*1 = seq 0 (length (flowfiles s)).

(** [tallied env found calls w w']: [w'] is [w] after the references
    [found] were visited in the course of the traversals [calls]. *)
Record tallied (env : Collaborators) (found : list (UA_ReferenceDescription * string))
    (calls : list (UA_NodeId * string * N)) (w w' : World) : Prop := mkTallied {
  tallied_variables :
    variablesFound_ (self w') =
      (variablesFound_ (self w) + N.of_nat (count_readable env found))%N;
  tallied_trace :
    exists evs,
      trace w' = trace w ++ evs /\ traverse_calls evs = calls /\
      reads evs = variables_of found;
  tallied_session : routed_once (session w) -> routed_once (session w')
}.

(** The content [OPCData2FlowFile] leaves in record [h]: the converted
    text when there is a value, the conversion succeeds and the write
    goes through. *)
Definition payload_of (env : Collaborators) (h : nat) (opcnode : NodeData) : option string :=
  if (0 <? length (data opcnode))%nat then
    match nodeValue2String env opcnode with
    | inr payload =>
        match write env h payload with
        | Some _ => None
        | None => Some payload
        end
    | inl _ => None
    end
  else None.

(** The writes [OPCData2FlowFile] attempts for record [h]. *)
Definition writes_of (env : Collaborators) (h : nat) (opcnode : NodeData)
    : list (nat * string) :=
  if (0 <? length (data opcnode))%nat then
    match nodeValue2String env opcnode with
    | inr payload => [(h, payload)]
    | inl _ => []
    end
  else [].

(** A run of invocations, one per element of [envs], each with the
    answers its collaborators give then; exceptions end an invocation,
    not the run. *)
Fixpoint triggers (envs : list Collaborators) (context : ProcessContext) (w : World)
    : World :=
  match envs with
  | [] => w
  | env :: rest => triggers rest context (onTrigger env context w).2
  end.

Definition unconfigured_events : list Event :=
  [EvLog ERROR "This processor was not configured properly, yielding. Please check for previous errors in the logs!";
   EvYield].

(** The type [onSchedule] ends up with: the recognized one, or the
    previous one when the configured text is none of the three names. *)
Definition scheduled_type (context : ProcessContext) (previous : opc.OPCNodeIDType)
    : opc.OPCNodeIDType :=
  let value := default "" (getProperty_string context (getName NodeIDType)) in
  if String.eqb value "String" then opc.String
  else if String.eqb value "Int" then opc.Int
  else if String.eqb value "Path" then opc.Path
  else previous.

(** The fields [onSchedule] leaves, as a function of the fields it finds. *)
Definition scheduled_self (env : Collaborators) (context : ProcessContext)
    (p : FetchOPCProcessor) : FetchOPCProcessor :=
  if base_onSchedule env context then
    let nodeID := default (nodeID_ p) (getProperty_string context (getName NodeID)) in
    let depth := default 0%N (getProperty_uint64 context (getName MaxDepth)) in
    let type := scheduled_type context (idType_ p) in
    let q :=
      set_idType type
        (set_maxDepth depth
           (set_nodeID nodeID (set_configOK false (set_translatedNodeIDs [] p)))) in
    if bool_decide (type = opc.Int) && negb (parses nodeID) then q
    else if bool_decide (type <> opc.Path) then
      match getProperty_int32 context (getName NameSpaceIndex) with
      | Some i => set_configOK true (set_nameSpaceIdx i q)
      | None => q
      end
    else set_configOK true q
  else set_configOK false (set_translatedNodeIDs [] p).

(** [visits env context found w calls w']: a walk that starts in [w],
    hands the references [found] to the visitor, in order, and ends in
    [w'].  [calls] lists the calls of the visitor, each as the world it
    is entered in and the world it returns in; between two calls the
    walk does nothing but start traversals. *)
Inductive visits (env : Collaborators) (context : ProcessContext)
    : list (UA_ReferenceDescription * string) -> World -> list (World * World) -> World
      -> Prop :=
  | visits_done w : visits env context [] w [] w
  | visits_call ref path found w w1 calls w' :
      nodeFoundCallBack env context ref path w = (Ok true, w1) ->
      visits env context found w1 calls w' ->
      visits env context ((ref, path) :: found) w ((w, w1) :: calls) w'
  | visits_traverse root basePath maxDepth found w calls w' :
      visits env context found
        (mkWorld (self w) (session w) (trace w ++ [EvTraverse root basePath maxDepth]))
        calls w' ->
      visits env context found w calls w'.

(** * Properties *)

(** ** Strings *)

Example stoi_42 : Str.stoi "42" = inr 42.
Proof. reflexivity. Qed.

Example stoi_neg : Str.stoi "  -17xyz" = inr (-17).
Proof. reflexivity. Qed.

Example stoi_word : Str.stoi "Sensors" = inl Str.invalid_argument.
Proof. reflexivity. Qed.

Example stoi_big : Str.stoi "2147483648" = inl Str.out_of_range.
Proof. reflexivity. Qed.

Example format_two :
  Str.format "%s is mandatory in case %s is not Path" ["Namespace index"; "Node ID type"]
  = "Namespace index is mandatory in case Node ID type is not Path".
Proof. reflexivity. Qed.

(** ** Proof steps *)

(** Unfold the monad down to functions on worlds. *)
Ltac run_monad :=
  unfold log, yield in *;
  unfold bind, ret, throw, try_catch, finally, get_self, get_session, modify_self,
    modify_session, emit in *.

(** Reduce field reads of record literals and of field updates. *)
Ltac fields :=
  cbn [self session trace flowfiles transfers
       configOK_ nodeID_ nameSpaceIdx_ idType_ maxDepth_ nodesFound_ variablesFound_
       translatedNodeIDs_ onTriggerMutex_
       set_configOK set_nodeID set_nameSpaceIdx set_idType set_maxDepth set_nodesFound
       set_variablesFound set_translatedNodeIDs set_onTriggerMutex negb] in *.

(** Closed statements about concrete runs, settled by evaluation. *)
Ltac by_evaluation :=
  cbv zeta;
  repeat match goal with
         | |- _ /\ _ => split
         | |- exists _, _ => eexists
         end;
  vm_compute; reflexivity.

Lemma app_assoc_cons {A} (l : list A) (x : A) (l' : list A) :
  (l ++ [x]) ++ l' = l ++ x :: l'.
Proof. by rewrite <- app_assoc. Qed.

(** ** Trigger on an invalid configuration *)

Lemma onTrigger_unconfigured env context w :
  configOK_ (self w) = false ->
  onTrigger env context w =
    (Ok tt,
     mkWorld (self w) (session w)
       (trace w ++
        [EvLog ERROR "This processor was not configured properly, yielding. Please check for previous errors in the logs!";
         EvYield])).
Proof.
  intros H. unfold onTrigger. run_monad. rewrite H. cbn.
  by rewrite app_assoc_cons.
Qed.


(** ** The record emitter *)

Lemma alter_alter {A} (f g : A -> A) i (l : list A) :
  alter f i (alter g i l) = alter (fun x => f (g x)) i l.
Proof.
  revert i. induction l as [|x l IH]; intros [|i]; cbn; try done.
  f_equal. apply IH.
Qed.

Lemma setAttribute_loop (l : list (string * string)) h w :
  for_each l (fun attr => setAttribute h attr.1 attr.2) w =
    (Ok tt,
     mkWorld (self w)
       (mkSession (alter (set_attrs l) h (flowfiles (session w))) (transfers (session w)))
       (trace w ++ ((fun kv => EvSetAttribute h kv.1 kv.2) <$> l))).
Proof.
  revert w. induction l as [|[k v] l IH]; intros w.
  - cbn. unfold ret. f_equal. destruct w as [p [ffs trs] t]; cbn.
    rewrite app_nil_r. f_equal. f_equal.
    symmetry. apply list_alter_id. by intros [].
  - cbn [for_each]. unfold bind at 1. unfold setAttribute at 1. run_monad. cbn.
    rewrite IH. cbn. f_equal. f_equal.
    + f_equal. by rewrite alter_alter.
    + by rewrite app_assoc_cons.
Qed.

Lemma foldl_insert_notin (l : list (string * string)) (m : gmap string string) k :
  k ∉ l.*1 -> foldl (fun m kv => <[kv.1 := kv.2]> m) m l !! k = m !! k.
Proof.
  revert m. induction l as [|[k' v'] l IH]; intros m Hk; [done|].
  cbn in *. apply not_elem_of_cons in Hk as [Hne Hk].
  rewrite IH by done. by rewrite lookup_insert_ne.
Qed.

Lemma foldl_insert_in (l : list (string * string)) (m : gmap string string) k v :
  NoDup l.*1 -> (k, v) ∈ l ->
  foldl (fun m kv => <[kv.1 := kv.2]> m) m l !! k = Some v.
Proof.
  revert m. induction l as [|[k' v'] l IH]; intros m Hnd Hin.
  - by apply elem_of_nil in Hin.
  - cbn in *. apply NoDup_cons in Hnd as [Hk' Hnd].
    apply elem_of_cons in Hin as [Heq|Hin].
    + inversion Heq; subst. rewrite foldl_insert_notin by done.
      apply lookup_insert_eq.
    + by apply IH.
Qed.

Lemma set_attrs_lookup (attrs : gmap string string) r k v :
  attrs !! k = Some v ->
  ff_attributes (set_attrs (map_to_list attrs) r) !! k = Some v.
Proof.
  intros H. unfold set_attrs; cbn. apply foldl_insert_in.
  - apply NoDup_fst_map_to_list.
  - by apply elem_of_map_to_list.
Qed.

Ltac solve_walk_events :=
  unfold walk_events, visit_events;
  rewrite ?Forall_app, ?Forall_cons, ?Forall_nil, ?Forall_fmap;
  repeat split; try done;
  try (apply Forall_forall; intros; done).

Lemma alter_last {A} (f : A -> A) (l : list A) (x : A) :
  alter f (length l) (l ++ [x]) = l ++ [f x].
Proof.
  rewrite <- (Nat.add_0_r (length l)). by rewrite alter_app_r.
Qed.

Lemma OPCData2FlowFile_null env opcnode context w :
  create env (length (flowfiles (session w))) = None ->
  OPCData2FlowFile env opcnode context w =
    (Ok tt,
     mkWorld (self w) (session w)
       (trace w ++ [EvCreate; EvLog ERROR "Failed to create flowfile!"])).
Proof.
  intros H. unfold OPCData2FlowFile, session_create. run_monad. cbn.
  rewrite H. cbn. by rewrite app_assoc_cons.
Qed.

Lemma OPCData2FlowFile_created env opcnode context w attrs0 :
  create env (length (flowfiles (session w))) = Some attrs0 ->
  let h := length (flowfiles (session w)) in
  exists content evs,
    OPCData2FlowFile env opcnode context w =
      (Ok tt,
       mkWorld (self w)
         (mkSession
            (flowfiles (session w) ++
               [mkFlowFile
                  (ff_attributes
                     (set_attrs (map_to_list (nd_attributes opcnode)) (mkFlowFile attrs0 None)))
                  content])
            (transfers (session w) ++ [(h, outlet env h opcnode)]))
         (trace w ++ EvCreate :: evs))
    /\ visit_events evs.
Proof.
  intros H h. unfold OPCData2FlowFile, session_create.
  unfold bind at 1. unfold bind at 1. unfold emit at 1. unfold bind at 1.
  unfold get_session at 1. cbn [self session trace].
  rewrite H. unfold bind at 1. unfold modify_session at 1. unfold ret at 1.
  cbn [self session trace flowfiles transfers].
  unfold bind at 1. rewrite setAttribute_loop. cbn [self session trace flowfiles transfers].
  replace (alter (set_attrs (map_to_list (nd_attributes opcnode))) (length (flowfiles (session w)))
             (flowfiles (session w) ++ [mkFlowFile attrs0 None]))
    with (flowfiles (session w) ++
            [set_attrs (map_to_list (nd_attributes opcnode)) (mkFlowFile attrs0 None)]).
  2:{ by rewrite alter_last. }
  fold h. unfold outlet, payload_throws.
  destruct (0 <? length (data opcnode))%nat eqn:Hd; cbn [andb].
  - destruct (nodeValue2String env opcnode) as [e|payload] eqn:Hconv.
    + unfold session_write, transfer, getAttribute. run_monad. cbn.
      unfold set_attrs; cbn.
      eexists _, _. split; [rewrite <- !app_assoc; cbn; reflexivity|].
      solve_walk_events.
    + destruct (write env h payload) as [e|] eqn:Hw.
      * unfold session_write, transfer, getAttribute. run_monad. cbn.
        subst h. rewrite Hw. cbn.
        unfold set_attrs; cbn.
        eexists _, _. split; [rewrite <- !app_assoc; cbn; reflexivity|].
      solve_walk_events.
      * unfold session_write, transfer, getAttribute. run_monad. cbn.
        subst h. rewrite Hw. cbn.
        rewrite alter_last.
        unfold set_attrs; cbn.
        eexists _, _. split; [rewrite <- !app_assoc; cbn; reflexivity|].
      solve_walk_events.
  - unfold transfer. run_monad. cbn.
    unfold set_attrs; cbn.
    eexists _, _. split; [rewrite <- !app_assoc; cbn; reflexivity|].
      solve_walk_events.
Qed.

(** ** The visitor *)

Lemma append_empty_r (s : string) : s +:+ "" = s.
Proof.
  induction s as [|c s IH]; [done|].
  change (String c (s +:+ "") = String c s). by f_equal.
Qed.

Lemma format_caught (label reason : string) :
  Str.format "Caught Exception while trying to get data from node &s: %s" [label; reason]
  = "Caught Exception while trying to get data from node &s: " +:+ label.
Proof. cbn. rewrite append_empty_r. reflexivity. Qed.

Lemma nodeFoundCallBack_other env context ref path w :
  is_variable (nodeClass ref) = false ->
  nodeFoundCallBack env context ref path w =
    (Ok true, mkWorld (count_node (self w)) (session w) (trace w)).
Proof.
  intros H. unfold nodeFoundCallBack. run_monad. cbn. by rewrite H.
Qed.

Lemma nodeFoundCallBack_read_throws env context ref path w e :
  is_variable (nodeClass ref) = true ->
  getNodeData env ref = inl e ->
  nodeFoundCallBack env context ref path w =
    (Ok true,
     mkWorld (count_node (self w)) (session w)
       (trace w ++
        [EvGetNodeData ref;
         EvLog WARN ("Caught Exception while trying to get data from node &s: "
                     +:+ Str.c_str (path +:+ "/" +:+ browseName ref))])).
Proof.
  intros Hv He. unfold nodeFoundCallBack, connection_getNodeData.
  run_monad. cbn [self session trace]. rewrite Hv, He.
  cbn [self session trace]. rewrite format_caught. by rewrite app_assoc_cons.
Qed.

Lemma nodeFoundCallBack_null env context ref path w nodedata :
  is_variable (nodeClass ref) = true ->
  getNodeData env ref = inr nodedata ->
  create env (length (flowfiles (session w))) = None ->
  nodeFoundCallBack env context ref path w =
    (Ok true,
     mkWorld (count_variable (count_node (self w))) (session w)
       (trace w ++ [EvGetNodeData ref; EvCreate; EvLog ERROR "Failed to create flowfile!"])).
Proof.
  intros Hv Hd Hc. unfold nodeFoundCallBack, connection_getNodeData.
  unfold bind at 1. unfold modify_self at 1. rewrite Hv.
  unfold bind at 1. unfold try_catch. unfold bind at 1. unfold bind at 1.
  unfold emit at 1. cbn [self session trace]. rewrite Hd. unfold ret at 1.
  unfold bind at 1. rewrite OPCData2FlowFile_null by done.
  run_monad. cbn [self session trace]. by rewrite app_assoc_cons.
Qed.

Lemma nodeFoundCallBack_created env context ref path w nodedata attrs0 :
  is_variable (nodeClass ref) = true ->
  getNodeData env ref = inr nodedata ->
  create env (length (flowfiles (session w))) = Some attrs0 ->
  let h := length (flowfiles (session w)) in
  exists content evs,
    nodeFoundCallBack env context ref path w =
      (Ok true,
       mkWorld (count_variable (count_node (self w)))
         (mkSession
            (flowfiles (session w) ++
               [mkFlowFile
                  (ff_attributes
                     (set_attrs (map_to_list (nd_attributes nodedata)) (mkFlowFile attrs0 None)))
                  content])
            (transfers (session w) ++ [(h, outlet env h nodedata)]))
         (trace w ++ EvGetNodeData ref :: EvCreate :: evs))
    /\ visit_events evs.
Proof.
  intros Hv Hd Hc h. unfold nodeFoundCallBack, connection_getNodeData.
  unfold bind at 1. unfold modify_self at 1. rewrite Hv.
  unfold bind at 1. unfold try_catch. unfold bind at 1. unfold bind at 1.
  unfold emit at 1. cbn [self session trace]. rewrite Hd. unfold ret at 1.
  unfold bind at 1.
  destruct (OPCData2FlowFile_created env nodedata context
              (mkWorld (count_node (self w)) (session w) (trace w ++ [EvGetNodeData ref]))
              attrs0 Hc) as (content & evs & Heq & Hevs).
  unfold count_node in Heq. cbn [self session trace] in Heq. rewrite Heq.
  exists content, evs. split; [|done]. run_monad. cbn [self session trace].
  by rewrite app_assoc_cons.
Qed.

(** ** Traversals *)

Lemma same_configuration_refl p : same_configuration p p.
Proof. by repeat split. Qed.

Lemma same_configuration_trans p1 p2 p3 :
  same_configuration p1 p2 -> same_configuration p2 p3 -> same_configuration p1 p3.
Proof.
  unfold same_configuration. intros (?&?&?&?&?&?&?) (?&?&?&?&?&?&?).
  repeat split; congruence.
Qed.

Lemma traversed_roots_app t1 t2 :
  traversed_roots (t1 ++ t2) = traversed_roots t1 ++ traversed_roots t2.
Proof.
  induction t1 as [|e t1 IH]; [done|].
  destruct e; cbn; by rewrite ?IH.
Qed.

Lemma visit_events_walk evs :
  visit_events evs -> walk_events evs /\ traversed_roots evs = [].
Proof.
  induction 1 as [|e evs He _ [IH1 IH2]]; [by split; [constructor|]|].
  split.
  - constructor; [by destruct e|done].
  - by destruct e.
Qed.

Lemma walked_refl env w : walked env [] 0 w w.
Proof.
  split.
  - apply same_configuration_refl.
  - cbn. lia.
  - exists 0%nat, 0%nat. repeat split; cbn; lia.
  - exists []. split; [by rewrite app_nil_r|]. split; [constructor|done].
Qed.

Lemma walked_trans env roots1 roots2 k1 k2 w1 w2 w3 :
  walked env roots1 k1 w1 w2 -> walked env roots2 k2 w2 w3 ->
  walked env (roots1 ++ roots2) (k1 + k2) w1 w3.
Proof.
  intros [C1 N1 (dv1 & dt1 & V1 & T1 & L1 & K1 & E1) (e1 & R1 & W1 & S1)]
         [C2 N2 (dv2 & dt2 & V2 & T2 & L2 & K2 & E2) (e2 & R2 & W2 & S2)].
  split.
  - eapply same_configuration_trans; eauto.
  - rewrite N2, N1. lia.
  - exists (dv1 + dv2)%nat, (dt1 + dt2)%nat. repeat split; try lia.
    intros Hc. rewrite (E1 Hc), (E2 Hc). done.
  - exists (e1 ++ e2). split; [|split].
    + rewrite R2, R1. by rewrite app_assoc.
    + unfold walk_events in *. by apply Forall_app.
    + rewrite traversed_roots_app. by rewrite S1, S2.
Qed.

Lemma walked_emit env w e :
  is_walk_event e = true ->
  walked env (traversed_roots [e]) 0 w (mkWorld (self w) (session w) (trace w ++ [e])).
Proof.
  intros He. split; cbn.
  - apply same_configuration_refl.
  - lia.
  - exists 0%nat, 0%nat. repeat split; cbn; lia.
  - exists [e]. split; [done|]. split; [by repeat constructor|done].
Qed.

Ltac solve_visit_trace :=
  eexists; split; [done|]; apply visit_events_walk; solve_walk_events.

Lemma nodeFoundCallBack_walked env context ref path w :
  exists w', nodeFoundCallBack env context ref path w = (Ok true, w') /\
             walked env [] 1 w w'.
Proof.
  destruct (is_variable (nodeClass ref)) eqn:Hv.
  - destruct (getNodeData env ref) as [e|nodedata] eqn:Hd.
    + eexists. split; [by eapply nodeFoundCallBack_read_throws|].
      split; cbn.
      * by repeat split.
      * lia.
      * exists 0%nat, 0%nat. repeat split; cbn; lia.
      * solve_visit_trace.
    + destruct (create env (length (flowfiles (session w)))) as [attrs0|] eqn:Hc.
      * destruct (nodeFoundCallBack_created env context ref path w nodedata attrs0 Hv Hd Hc)
          as (content & evs & Heq & Hevs).
        eexists. split; [exact Heq|].
        split; cbn.
        -- by repeat split.
        -- lia.
        -- exists 1%nat, 1%nat. rewrite length_app. repeat split; cbn; lia.
        -- eexists. split; [done|]. apply visit_events_walk.
           revert Hevs. solve_walk_events.
      * eexists. split; [by eapply nodeFoundCallBack_null|].
        split; cbn.
        -- by repeat split.
        -- lia.
        -- exists 1%nat, 0%nat. repeat split; cbn; try lia.
           intros Hn. by destruct (Hn _ Hc).
        -- solve_visit_trace.
  - eexists. split; [by eapply nodeFoundCallBack_other|].
    split; cbn.
    + by repeat split.
    + lia.
    + exists 0%nat, 0%nat. repeat split; cbn; lia.
    + exists []. split; [by rewrite app_nil_r|]. split; [constructor|done].
Qed.

Lemma visit_all_walked env context found w :
  exists w', visit_all (nodeFoundCallBack env context) found w = (Ok tt, w') /\
             walked env [] (length found) w w'.
Proof.
  revert w. induction found as [|[ref path] found IH]; intros w.
  - exists w. split; [done|apply walked_refl].
  - destruct (nodeFoundCallBack_walked env context ref path w) as (w1 & Heq & Hw1).
    destruct (IH w1) as (w2 & Heq2 & Hw2).
    exists w2. split.
    + cbn [visit_all]. unfold bind. rewrite Heq. exact Heq2.
    + change (length ((ref, path) :: found)) with (1 + length found)%nat.
      change (@nil UA_NodeId) with (@nil UA_NodeId ++ []).
      eapply walked_trans; eauto.
Qed.

Lemma visit_all_app env context found1 found2 w w1 :
  visit_all (nodeFoundCallBack env context) found1 w = (Ok tt, w1) ->
  visit_all (nodeFoundCallBack env context) (found1 ++ found2) w =
  visit_all (nodeFoundCallBack env context) found2 w1.
Proof.
  revert w. induction found1 as [|[ref path] found1 IH]; intros w H.
  - cbn in H. unfold ret in H. by inversion H.
  - destruct (nodeFoundCallBack_walked env context ref path w) as (w' & Heq & _).
    cbn [visit_all app] in *. unfold bind in *. rewrite Heq in *. by apply IH.
Qed.

Lemma connection_traverse_walked env context root basePath maxDepth w :
  exists w',
    connection_traverse env root (nodeFoundCallBack env context) basePath maxDepth w
      = (Ok tt, w') /\
    walked env [root] (length (discovered env root basePath maxDepth)) w w'.
Proof.
  unfold connection_traverse. unfold bind, emit.
  destruct (visit_all_walked env context (discovered env root basePath maxDepth)
              (mkWorld (self w) (session w) (trace w ++ [EvTraverse root basePath maxDepth])))
    as (w' & Heq & Hw).
  exists w'. split; [done|].
  change (length (discovered env root basePath maxDepth))
    with (0 + length (discovered env root basePath maxDepth))%nat.
  change [root] with (traversed_roots [EvTraverse root basePath maxDepth] ++ []).
  eapply walked_trans; [|exact Hw]. by apply walked_emit.
Qed.

Lemma traverse_roots_walked env context roots basePath maxDepth w :
  exists w',
    for_each roots
      (fun nodeID =>
         connection_traverse env nodeID (nodeFoundCallBack env context) basePath maxDepth) w
      = (Ok tt, w') /\
    walked env roots (length (discovered_below env roots basePath maxDepth)) w w'.
Proof.
  revert w. induction roots as [|root roots IH]; intros w.
  - exists w. split; [done|apply walked_refl].
  - destruct (connection_traverse_walked env context root basePath maxDepth w)
      as (w1 & Heq1 & Hw1).
    destruct (IH w1) as (w2 & Heq2 & Hw2).
    exists w2. split.
    + cbn [for_each]. unfold bind. rewrite Heq1. exact Heq2.
    + unfold discovered_below. cbn. rewrite length_app.
      change (root :: roots) with ([root] ++ roots).
      eapply walked_trans; eauto.
Qed.

(** ** The trigger *)

Lemma for_each_single {A} (x : A) (body : A -> M unit) w w' :
  body x w = (Ok tt, w') -> for_each [x] body w = (Ok tt, w').
Proof. intros H. cbn. unfold bind, ret. by rewrite H. Qed.

Lemma onTrigger_locked_disconnected env context w :
  reconnect env = false ->
  onTrigger_locked env context w =
    (Ok tt, mkWorld (self w) (session w) (trace w ++ [EvReconnect; EvYield])).
Proof.
  intros H. unfold onTrigger_locked. run_monad. rewrite H. cbn.
  by rewrite app_assoc_cons.
Qed.

Lemma onTrigger_locked_stoi_throws env context w e :
  reconnect env = true ->
  idType_ (self w) = opc.Int ->
  Str.stoi (nodeID_ (self w)) = inl e ->
  onTrigger_locked env context w = (Throw (mkExn (Str.stoi_what e)), connected w).
Proof.
  intros H Ht Hs. unfold onTrigger_locked. run_monad. rewrite H. cbn.
  rewrite Ht, Hs. done.
Qed.

Lemma onTrigger_locked_unresolved env context w sc :
  reconnect env = true ->
  idType_ (self w) = opc.Path ->
  translatedNodeIDs_ (self w) = [] ->
  translateBrowsePathsToNodeIdsRequest env (nodeID_ (self w)) = inl sc ->
  sc <> UA_STATUSCODE_GOOD ->
  onTrigger_locked env context w =
    (Ok tt,
     mkWorld (start_walk (self w)) (session w)
       (trace w ++
        [EvReconnect; EvTranslate (nodeID_ (self w));
         EvLog ERROR
           (Str.format "Failed to translate %s to node id, no flow files will be generated (%s)"
              [Str.c_str (nodeID_ (self w)); UA_StatusCode_name env sc]);
         EvYield])).
Proof.
  intros H Ht Hc Hs Hsc. unfold onTrigger_locked, connection_translate.
  run_monad. rewrite H. fields.
  rewrite Ht, Hc. rewrite bool_decide_true by done. fields.
  rewrite Hs. apply Z.eqb_neq in Hsc. rewrite Hsc. fields.
  unfold start_walk. rewrite <- !app_assoc. done.
Qed.

Lemma onTrigger_locked_traverses env context w roots basePath w1 :
  reconnect env = true ->
  enters_traversal env (connected w) roots basePath w1 ->
  exists w2,
    for_each roots
      (fun nodeID =>
         connection_traverse env nodeID (nodeFoundCallBack env context) basePath
           (maxDepth_ (self w))) w1 = (Ok tt, w2) /\
    walked env roots (length (discovered_below env roots basePath (maxDepth_ (self w))))
      w1 w2 /\
    onTrigger_locked env context w = (Ok tt, conclude w2).
Proof.
  intros H Hin.
  destruct (traverse_roots_walked env context roots basePath (maxDepth_ (self w)) w1)
    as (w2 & Heq & Hw).
  exists w2. split; [done|]. split; [done|].
  unfold onTrigger_locked.
  unfold bind at 1. unfold emit at 1. rewrite H. cbn [negb].
  unfold bind at 1. unfold modify_self at 1. cbn [self session trace].
  unfold bind at 1. unfold modify_self at 1. cbn [self session trace].
  unfold bind at 1. unfold get_self at 1. cbn [self session trace].
  assert (Hend : forall w2 : World,
    (p <- get_self;;
     (if (nodesFound_ p =? 0)%N
      then log WARN warn_no_nodes;; yield
      else if (variablesFound_ p =? 0)%N
           then log WARN warn_no_variables;; yield
           else ret ())) w2 = (Ok tt, conclude w2)).
  { intros w3. unfold conclude, conclusion. run_monad.
    destruct (nodesFound_ (self w3) =? 0)%N; cbn.
    - by rewrite app_assoc_cons.
    - destruct (variablesFound_ (self w3) =? 0)%N; cbn.
      + by rewrite app_assoc_cons.
      + rewrite app_nil_r. by destruct w3. }
  inversion Hin; subst; unfold connected, start_walk in *; fields.
  - (* Int *)
    rewrite H0, H1. apply for_each_single in Heq as Heq'.
    cbn [for_each] in Heq. unfold bind at 1 in Heq.
    unfold bind at 1. unfold bind at 1. unfold ret at 1. unfold bind at 1.
    fields.
    destruct (connection_traverse _ _ _ _ _ _) as [[[]|] w'] eqn:Ht; [|done].
    unfold ret in Heq. inversion Heq; subst. unfold ret at 1. cbn [negb].
    apply Hend.
  - (* String *)
    rewrite H0.
    cbn [for_each] in Heq. unfold bind at 1 in Heq.
    unfold bind at 1. unfold bind at 1.
    fields.
    destruct (connection_traverse _ _ _ _ _ _) as [[[]|] w'] eqn:Ht; [|done].
    unfold ret in Heq. inversion Heq; subst. unfold ret at 1. cbn [negb].
    apply Hend.
  - (* Path, cached *)
    rewrite H0. rewrite bool_decide_false by done.
    unfold bind at 1. unfold bind at 1. unfold ret at 1. cbn [negb].
    unfold bind at 1. unfold get_self at 1. unfold bind at 1.
    fields.
    rewrite Heq. unfold ret at 1. cbn [negb]. apply Hend.
  - (* Path, translated now *)
    rewrite H0, H1. rewrite bool_decide_true by done.
    unfold connection_translate.
    unfold bind at 1. unfold bind at 1. unfold bind at 1. unfold bind at 1.
    unfold get_self at 1. unfold bind at 1. unfold emit at 1.
    fields.
    rewrite H2. rewrite H1. unfold bind at 1. unfold modify_self at 1. unfold ret at 1.
    cbn [Z.eqb UA_STATUSCODE_GOOD negb]. unfold ret at 1. cbn [negb].
    unfold bind at 1. unfold get_self at 1. unfold bind at 1.
    fields; cbn [app] in *.
    rewrite Heq. unfold ret at 1. cbn [negb]. apply Hend.
  - (* Path, good status and nothing found *)
    rewrite H0, H1. rewrite bool_decide_true by done.
    unfold connection_translate.
    unfold bind at 1. unfold bind at 1. unfold bind at 1. unfold bind at 1.
    unfold get_self at 1. unfold bind at 1. unfold emit at 1.
    fields.
    rewrite H2. unfold ret at 1.
    cbn [Z.eqb UA_STATUSCODE_GOOD negb]. unfold ret at 1. cbn [negb].
    unfold bind at 1. unfold get_self at 1. unfold bind at 1.
    fields; cbn [app] in *.
    rewrite H1. cbn [for_each]. unfold ret at 1. unfold ret at 1. cbn [negb].
    cbn [for_each] in Heq. unfold ret in Heq. inversion Heq; subst.
    apply Hend.
Qed.

(** ** Scheduling *)

Lemma onSchedule_returns env context w :
  exists w', onSchedule env context w = (Ok tt, w').
Proof.
  unfold onSchedule. run_monad. fields.
  repeat (case_match; fields; simplify_eq); eauto.
Qed.

Lemma onSchedule_clears_cache env context w r w' :
  onSchedule env context w = (r, w') -> translatedNodeIDs_ (self w') = [].
Proof.
  unfold onSchedule. run_monad. fields. intros H.
  repeat (case_match; fields; simplify_eq); done.
Qed.

Lemma onSchedule_configured env context w r w' :
  onSchedule env context w = (r, w') ->
  configOK_ (self w') = true ->
  base_onSchedule env context = true /\
  (idType_ (self w') = opc.Int -> exists n, Str.stoi (nodeID_ (self w')) = inr n) /\
  (idType_ (self w') <> opc.Path ->
   getProperty_int32 context (getName NameSpaceIndex) = Some (nameSpaceIdx_ (self w'))).
Proof.
  unfold onSchedule. run_monad. fields. intros H Hok.
  destruct (base_onSchedule env context) eqn:Hb; fields; [|by simplify_eq].
  repeat (case_match; fields; simplify_eq); fields; try done;
    repeat split; intros; try done; eauto.
Qed.

Lemma onSchedule_int_configured env context w v n i :
  base_onSchedule env context = true ->
  getProperty_string context (getName NodeIDType) = Some "Int" ->
  getProperty_string context (getName NodeID) = Some v ->
  Str.stoi v = inr n ->
  getProperty_int32 context (getName NameSpaceIndex) = Some i ->
  exists w',
    onSchedule env context w = (Ok tt, w') /\
    configOK_ (self w') = true /\ idType_ (self w') = opc.Int /\
    nodeID_ (self w') = v /\ nameSpaceIdx_ (self w') = i /\
    onTriggerMutex_ (self w') = onTriggerMutex_ (self w).
Proof.
  intros Hb Ht Hv Hn Hi. unfold onSchedule. run_monad. fields.
  rewrite Hb, Ht, Hv, Hi. fields.
  destruct (getProperty_uint64 context (getName MaxDepth));
    cbn -[Str.stoi Str.format]; rewrite Hn; cbn -[Str.stoi Str.format]; eauto 10.
Qed.

(** ** Invocations *)

Lemma onTrigger_acquires env context w :
  configOK_ (self w) = true ->
  onTriggerMutex_ (self w) = false ->
  onTrigger env context w =
    let '(r, w') := onTrigger_locked env context (acquired w) in (r, released w').
Proof.
  intros H1 H2. unfold onTrigger. run_monad. rewrite H1, H2. fields. done.
Qed.

Lemma count_app kind t1 t2 : count kind (t1 ++ t2) = (count kind t1 + count kind t2)%nat.
Proof. unfold count. by rewrite List.filter_app, length_app. Qed.

Lemma count_none kind evs :
  Forall (fun e => kind e = false) evs -> count kind evs = 0%nat.
Proof.
  unfold count. induction 1 as [|e evs He _ IH]; [done|].
  cbn. by rewrite He.
Qed.

Lemma walk_events_quiet evs :
  walk_events evs ->
  count is_yield evs = 0%nat /\ count is_reconnect evs = 0%nat /\
  count is_translate evs = 0%nat.
Proof.
  intros H. repeat split; apply count_none; eapply Forall_impl; try exact H;
    intros e He; by destruct e.
Qed.

Lemma conclusion_quiet p :
  count is_reconnect (conclusion p) = 0%nat /\ count is_translate (conclusion p) = 0%nat /\
  traversed_roots (conclusion p) = [].
Proof. unfold conclusion. by repeat case_match. Qed.

(** Every way a connected invocation can go. *)
Lemma onTrigger_locked_cases env w :
  reconnect env = false \/
  (reconnect env = true /\ idType_ (self w) = opc.Int /\
   exists e, Str.stoi (nodeID_ (self w)) = inl e) \/
  (reconnect env = true /\ idType_ (self w) = opc.Path /\
   translatedNodeIDs_ (self w) = [] /\
   exists sc, translateBrowsePathsToNodeIdsRequest env (nodeID_ (self w)) = inl sc /\
              sc <> UA_STATUSCODE_GOOD) \/
  (reconnect env = true /\
   exists roots basePath w1, enters_traversal env (connected w) roots basePath w1).
Proof.
  destruct (reconnect env) eqn:Hr; [|by left].
  right. destruct (idType_ (self w)) eqn:Ht.
  - destruct (translatedNodeIDs_ (self w)) as [|id ids] eqn:Hc.
    + destruct (translateBrowsePathsToNodeIdsRequest env (nodeID_ (self w)))
        as [sc|ids] eqn:Hs.
      * destruct (decide (sc = UA_STATUSCODE_GOOD)) as [->|Hsc].
        -- right; right. split; [done|]. eexists _, _, _.
           by apply enter_nothing.
        -- right; left. eauto 10.
      * right; right. split; [done|]. eexists _, _, _.
        by apply enter_translated.
    + right; right. split; [done|]. eexists _, _, _.
      apply enter_cached; cbn; [done|]. by rewrite Hc.
  - destruct (Str.stoi (nodeID_ (self w))) as [e|n] eqn:Hs.
    + left. eauto.
    + right; right. split; [done|]. eexists _, _, _. by apply (enter_int _ _ n).
  - right; right. split; [done|]. eexists _, _, _. by apply enter_string.
Qed.

(** The cache after entering a traversal: what it was, or, when it was
    empty, what a good translation returned. *)
Lemma enters_traversal_cache env w0 roots basePath w1 :
  enters_traversal env w0 roots basePath w1 ->
  nodeID_ (self w1) = nodeID_ (self w0) /\ idType_ (self w1) = idType_ (self w0) /\
  configOK_ (self w1) = configOK_ (self w0) /\
  onTriggerMutex_ (self w1) = onTriggerMutex_ (self w0) /\
  nodesFound_ (self w1) = nodesFound_ (self w0) /\
  variablesFound_ (self w1) = variablesFound_ (self w0) /\
  session w1 = session w0 /\
  (translatedNodeIDs_ (self w1) = translatedNodeIDs_ (self w0) \/
   translatedNodeIDs_ (self w0) = [] /\
   translateBrowsePathsToNodeIdsRequest env (nodeID_ (self w0))
     = inr (translatedNodeIDs_ (self w1))) /\
  exists evs, trace w1 = trace w0 ++ evs /\
              count is_yield evs = 0%nat /\ count is_reconnect evs = 0%nat /\
              traversed_roots evs = [] /\
              count is_translate evs =
                (if bool_decide (idType_ (self w0) = opc.Path
                                 /\ translatedNodeIDs_ (self w0) = [])
                 then 1 else 0)%nat.
Proof.
  destruct 1; fields; repeat split; auto.
  - exists []. rewrite app_nil_r. repeat split; try done.
    rewrite bool_decide_false; [done|]. intros [? _]. congruence.
  - exists []. rewrite app_nil_r. repeat split; try done.
    rewrite bool_decide_false; [done|]. intros [? _]. congruence.
  - exists []. rewrite app_nil_r. repeat split; try done.
    rewrite bool_decide_false; [done|]. intros [_ ?]. congruence.
  - eexists. split; [done|]. repeat split; try done. by rewrite bool_decide_true.
  - eexists. split; [done|]. repeat split; try done. by rewrite bool_decide_true.
Qed.

Lemma onTrigger_busy env context w :
  configOK_ (self w) = true ->
  onTriggerMutex_ (self w) = true ->
  onTrigger env context w =
    (Ok tt,
     mkWorld (self w) (session w)
       (trace w ++
        [EvLog TRACE "FetchOPCProcessor::onTrigger";
         EvLog WARN "processor was triggered before previous listing finished, configuration should be revised!"])).
Proof.
  intros H1 H2. unfold onTrigger. run_monad. rewrite H1, H2. fields.
  by rewrite app_assoc_cons.
Qed.

Lemma onTrigger_traverses env context w roots basePath w1 :
  configOK_ (self w) = true ->
  onTriggerMutex_ (self w) = false ->
  reconnect env = true ->
  enters_traversal env (connected (acquired w)) roots basePath w1 ->
  exists w2,
    walked env roots (length (discovered_below env roots basePath (maxDepth_ (self w))))
      w1 w2 /\
    onTrigger env context w = (Ok tt, released (conclude w2)).
Proof.
  intros Hok Hm Hr Hin.
  destruct (onTrigger_locked_traverses env context (acquired w) roots basePath w1 Hr Hin)
    as (w2 & _ & Hw & Heq).
  exists w2. split; [exact Hw|].
  rewrite onTrigger_acquires by done. by rewrite Heq.
Qed.

(** What an invocation leaves of the configuration: every field but the
    cache is kept, and the cache is kept too unless it was empty and a
    good translation filled it. *)
Lemma onTrigger_frame env context w r w' :
  onTrigger env context w = (r, w') ->
  configOK_ (self w') = configOK_ (self w) /\
  nodeID_ (self w') = nodeID_ (self w) /\
  idType_ (self w') = idType_ (self w) /\
  onTriggerMutex_ (self w') = onTriggerMutex_ (self w) /\
  (translatedNodeIDs_ (self w') = translatedNodeIDs_ (self w) \/
   translatedNodeIDs_ (self w) = [] /\
   translateBrowsePathsToNodeIdsRequest env (nodeID_ (self w))
     = inr (translatedNodeIDs_ (self w'))).
Proof.
  intros H.
  destruct (configOK_ (self w)) eqn:Hok.
  2:{ rewrite onTrigger_unconfigured in H by done. simplify_eq. fields. auto 10. }
  destruct (onTriggerMutex_ (self w)) eqn:Hm.
  { rewrite onTrigger_busy in H by done. simplify_eq. fields. auto 10. }
  destruct (onTrigger_locked_cases env (acquired w))
    as [Hr|[(Hr & Ht & e & Hs)|[(Hr & Ht & Hc & sc & Hs & Hsc)|(Hr & roots & bp & w1 & Hin)]]].
  - rewrite onTrigger_acquires in H by done.
    rewrite onTrigger_locked_disconnected in H by done. simplify_eq. fields. auto 10.
  - rewrite onTrigger_acquires in H by done.
    rewrite (onTrigger_locked_stoi_throws _ _ _ e) in H by done.
    simplify_eq. unfold connected, start_walk. fields. auto 10.
  - rewrite onTrigger_acquires in H by done.
    rewrite (onTrigger_locked_unresolved _ _ _ sc) in H by done.
    simplify_eq. unfold start_walk. fields. auto 10.
  - destruct (onTrigger_traverses env context w roots bp w1 Hok Hm Hr Hin)
      as (w2 & [(C1 & C2 & C3 & C4 & C5 & C6 & C7) _ _ _] & Heq).
    rewrite Heq in H. simplify_eq.
    apply enters_traversal_cache in Hin
      as (E1 & E2 & E3 & E4 & _ & _ & _ & E5 & _).
    unfold released, conclude, connected, acquired, start_walk in *. fields.
    rewrite C1, C2, C4, C6, E1, E2, E3. by repeat split.
Qed.

Lemma scheduled_int_parses p :
  scheduled p -> configOK_ p = true -> idType_ p = opc.Int ->
  exists n, Str.stoi (nodeID_ p) = inr n.
Proof.
  induction 1 as [env context w r w' H|env context w r w' _ IH H|p b _ IH];
    intros Hok Ht.
  - eapply onSchedule_configured in H as (_ & Hp & _); eauto.
  - apply onTrigger_frame in H as (F1 & F2 & F3 & _).
    rewrite F2. apply IH; congruence.
  - apply IH; by destruct p.
Qed.

(** An invocation that gets to its roots, summed up. *)
Lemma onTrigger_traverses_summary env context w roots basePath w1 :
  configOK_ (self w) = true ->
  onTriggerMutex_ (self w) = false ->
  reconnect env = true ->
  enters_traversal env (connected (acquired w)) roots basePath w1 ->
  exists w' evs (dv dt : nat),
    onTrigger env context w = (Ok tt, w') /\
    trace w' = trace w ++ EvLog TRACE "FetchOPCProcessor::onTrigger" :: EvReconnect :: evs /\
    traversed_roots evs = roots /\
    count is_reconnect evs = 0%nat /\
    count is_translate evs =
      (if bool_decide (idType_ (self w) = opc.Path /\ translatedNodeIDs_ (self w) = [])
       then 1 else 0)%nat /\
    count is_yield evs = count is_yield (conclusion (self w')) /\
    translatedNodeIDs_ (self w') = translatedNodeIDs_ (self w1) /\
    nodesFound_ (self w') =
      N.of_nat (length (discovered_below env roots basePath (maxDepth_ (self w)))) /\
    variablesFound_ (self w') = N.of_nat dv /\
    length (transfers (session w')) = (length (transfers (session w)) + dt)%nat /\
    (dt <= dv)%nat /\
    (dv <= length (discovered_below env roots basePath (maxDepth_ (self w))))%nat /\
    ((forall n, create env n <> None) -> dt = dv).
Proof.
  intros Hok Hm Hr Hin.
  destruct (onTrigger_traverses env context w roots basePath w1 Hok Hm Hr Hin)
    as (w2 & [(C1 & C2 & C3 & C4 & C5 & C6 & C7) Hn (dv & dt & Hv & Htr & Hle & Hk & Hfull)
                (evs & Hevs & Hwalk & Hroots)] & Heq).
  apply enters_traversal_cache in Hin
    as (E1 & E2 & E3 & E4 & E5 & E6 & E7 & _ & (evs0 & Hevs0 & Y0 & R0 & T0 & X0)).
  destruct (walk_events_quiet evs Hwalk) as (Y1 & R1 & X1).
  destruct (conclusion_quiet (self w2)) as (R2 & X2 & T2).
  exists (released (conclude w2)), (evs0 ++ evs ++ conclusion (self w2)), dv, dt.
  unfold released, conclude, connected, acquired, start_walk in *. fields.
  split; [done|]. split.
  { rewrite Hevs, Hevs0. rewrite <- !app_assoc. done. }
  rewrite !traversed_roots_app, !count_app.
  rewrite T0, Hroots, T2, R0, R1, R2, X0, X1, X2, Y0, Y1, Hn, Hv, Htr, E5, E6, E7.
  rewrite app_nil_r. cbn [app].
  repeat split; try done; lia.
Qed.

Lemma onTrigger_connects env context w :
  configOK_ (self w) = true ->
  onTriggerMutex_ (self w) = false ->
  exists r w' evs,
    onTrigger env context w = (r, w') /\
    trace w' = trace w ++ EvLog TRACE "FetchOPCProcessor::onTrigger" :: EvReconnect :: evs.
Proof.
  intros Hok Hm.
  destruct (onTrigger_locked_cases env (acquired w))
    as [Hr|[(Hr & Ht & e & Hs)|[(Hr & Ht & Hc & sc & Hs & Hsc)|(Hr & roots & bp & w1 & Hin)]]].
  - rewrite onTrigger_acquires by done.
    rewrite onTrigger_locked_disconnected by done.
    eexists _, _, _. split; [done|]. unfold released, acquired. fields.
    by rewrite <- app_assoc.
  - rewrite onTrigger_acquires by done.
    rewrite (onTrigger_locked_stoi_throws _ _ _ e) by done.
    eexists _, _, []. split; [done|]. unfold released, connected, acquired. fields.
    by rewrite <- app_assoc.
  - rewrite onTrigger_acquires by done.
    rewrite (onTrigger_locked_unresolved _ _ _ sc) by done.
    eexists _, _, _. split; [done|]. unfold released, acquired. fields.
    by rewrite <- app_assoc.
  - destruct (onTrigger_traverses_summary env context w roots bp w1 Hok Hm Hr Hin)
      as (w' & evs & _ & _ & Heq & Htrace & _).
    eauto.
Qed.

(** ** Runs of the plant *)

(** Five references, four of them variables, all readable: four records,
    all routed to [Success]. *)
Example walk_of_a_healthy_plant :
  let env := Plant.server [] [] false in
  let w := (onTrigger env Plant.by_path (Plant.scheduled_with env Plant.by_path)).2 in
  nodesFound_ (self w) = 5%N /\ variablesFound_ (self w) = 4%N /\
  transfers (session w) =
    [(0%nat, Success); (1%nat, Success); (2%nat, Success); (3%nat, Success)] /\
  count is_yield (trace w) = 0%nat.
Proof. by_evaluation. Qed.

(** Reading the second variable throws: three records, and the walk
    goes on to the third and fourth variable. *)
Example walk_with_an_unreadable_variable :
  let env := Plant.server ["t2"] [] false in
  let w := (onTrigger env Plant.by_path (Plant.scheduled_with env Plant.by_path)).2 in
  nodesFound_ (self w) = 5%N /\ variablesFound_ (self w) = 3%N /\
  transfers (session w) = [(0%nat, Success); (1%nat, Success); (2%nat, Success)] /\
  count is_yield (trace w) = 0%nat.
Proof. by_evaluation. Qed.

(** The value of the second variable cannot be converted: its record
    keeps the attributes and goes to [Failure]. *)
Example walk_with_an_unconvertible_value :
  let env := Plant.server [] ["t2"] false in
  let w := (onTrigger env Plant.by_path (Plant.scheduled_with env Plant.by_path)).2 in
  nodesFound_ (self w) = 5%N /\ variablesFound_ (self w) = 4%N /\
  transfers (session w) =
    [(0%nat, Success); (1%nat, Failure); (2%nat, Success); (3%nat, Success)] /\
  (flowfiles (session w) !! 1%nat ≫= fun r => ff_attributes r !! "Browsename") = Some "t2".
Proof. by_evaluation. Qed.

(** A path the server cannot translate: the invocation yields before any
    traversal, and the cache stays empty. *)
Example walk_of_an_unknown_path :
  let env := Plant.single false in
  let w := (onTrigger env Plant.by_path (Plant.scheduled_with env Plant.by_path)).2 in
  translatedNodeIDs_ (self w) = [] /\ traversed_roots (trace w) = [] /\
  count is_yield (trace w) = 1%nat.
Proof. by_evaluation. Qed.

(** Without any namespace index to be had, [Int] mode is refused. *)
Example schedule_without_an_index :
  let env := Plant.server [] [] false in
  let w := (onSchedule env Plant.without_index Plant.start).2 in
  configOK_ (self w) = false /\
  trace (onTrigger env Plant.without_index w).2 =
    trace w ++
    [EvLog ERROR "This processor was not configured properly, yielding. Please check for previous errors in the logs!";
     EvYield].
Proof. by_evaluation. Qed.

(** * Claims *)

(** C9. A trigger invocation that gets to the execution guard while
    another invocation owns it takes nothing: it logs a warning and
    returns at once, with no yield; the counters, the cache, the mutex,
    the session and the connection are as they were.  (The guard is
    reached only past the configuration check, hence [configOK_]: an
    invocation owns the mutex only after passing that same check.) *)
Theorem C9_overlapping_trigger_skipped env context w :
  configOK_ (self w) = true ->
  onTriggerMutex_ (self w) = true ->
  onTrigger env context w =
    (Ok tt,
     mkWorld (self w) (session w)
       (trace w ++
        [EvLog TRACE "FetchOPCProcessor::onTrigger";
         EvLog WARN "processor was triggered before previous listing finished, configuration should be revised!"])).
Proof. apply onTrigger_busy. Qed.

Lemma C9_witness :
  let w := mkWorld (mkProc true "/Sensors" 0 opc.Path 0%N 3%N 1%N [Plant.sensors] true)
             (mkSession [] []) [] in
  onTrigger (Plant.server [] [] false) Plant.by_path w =
    (Ok tt,
     mkWorld (self w) (session w)
       [EvLog TRACE "FetchOPCProcessor::onTrigger";
        EvLog WARN "processor was triggered before previous listing finished, configuration should be revised!"]).
Proof.
  intros w. apply (C9_overlapping_trigger_skipped (Plant.server [] [] false) Plant.by_path w);
    reflexivity.
Defined.

(** C2. A record that was created is routed to exactly one outlet: the
    session gains exactly one transfer, for the new handle.  The outlet is
    [Failure] exactly when the value is present and writing it as the
    payload (conversion to text, then the session write) throws, and
    [Success] exactly when the value is absent or the write goes through;
    either way the record carries every attribute of the node data. *)
Theorem C2_record_routed_to_exactly_one_outlet env opcnode context w attrs0 :
  create env (length (flowfiles (session w))) = Some attrs0 ->
  let h := length (flowfiles (session w)) in
  exists w' rel record,
    OPCData2FlowFile env opcnode context w = (Ok tt, w') /\
    transfers (session w') = transfers (session w) ++ [(h, rel)] /\
    (rel = Failure <-> data opcnode <> [] /\ payload_throws env h opcnode = true) /\
    (rel = Success <-> data opcnode = [] \/ payload_throws env h opcnode = false) /\
    flowfiles (session w') = flowfiles (session w) ++ [record] /\
    (forall k v, nd_attributes opcnode !! k = Some v -> ff_attributes record !! k = Some v).
Proof.
  intros Hc h.
  destruct (OPCData2FlowFile_created env opcnode context w attrs0 Hc)
    as (content & evs & Heq & _).
  eexists _, (outlet env h opcnode), _. split; [exact Heq|].
  cbn [session transfers flowfiles]. split; [done|].
  unfold outlet. split; [|split; [|split; [done|]]].
  - destruct (data opcnode) as [|b bs]; destruct (payload_throws env h opcnode);
      cbn; intuition congruence.
  - destruct (data opcnode) as [|b bs]; destruct (payload_throws env h opcnode);
      cbn; intuition congruence.
  - intros k v Hk. cbn [ff_attributes]. by apply set_attrs_lookup.
Qed.

Lemma C2_witness :
  let env := Plant.server [] ["t2"] false in
  exists w' rel record,
    OPCData2FlowFile env (Plant.reading "t2") Plant.by_path Plant.start = (Ok tt, w') /\
    transfers (session w') = transfers (session Plant.start) ++ [(0%nat, rel)] /\
    (rel = Failure <->
     data (Plant.reading "t2") <> [] /\ payload_throws env 0 (Plant.reading "t2") = true) /\
    (rel = Success <->
     data (Plant.reading "t2") = [] \/ payload_throws env 0 (Plant.reading "t2") = false) /\
    flowfiles (session w') = flowfiles (session Plant.start) ++ [record] /\
    (forall k v, nd_attributes (Plant.reading "t2") !! k = Some v ->
                 ff_attributes record !! k = Some v).
Proof.
  intros env.
  apply (C2_record_routed_to_exactly_one_outlet env (Plant.reading "t2") Plant.by_path
           Plant.start ∅).
  reflexivity.
Defined.

(** C1 (as stated, refuted).  On a variable whose value cannot be
    converted to text, the visitor does not skip the node: a record is
    created and routed to [Failure], and [variablesFound_] is
    incremented. *)
Lemma C1_conversion_failure_counterexample :
  let env := Plant.server [] ["t2"] false in
  let ref := Plant.variable "t2" in
  is_variable (nodeClass ref) = true /\
  getNodeData env ref = inr (Plant.reading "t2") /\
  nodeValue2String env (Plant.reading "t2") = inl (mkExn "Data type is not supported") /\
  exists w',
    nodeFoundCallBack env Plant.by_path ref "/Sensors/Line1" Plant.start = (Ok true, w') /\
    variablesFound_ (self w') = (variablesFound_ (self Plant.start) + 1)%N /\
    transfers (session w') = [(0%nat, Failure)] /\
    length (flowfiles (session w')) = 1%nat.
Proof.
  by_evaluation.
Qed.

(** C1 (amended).  On a node classified as a variable, a throw while
    reading the node's data is caught in the visitor and logged with the
    node's path label, printed as a C string (the label up to its first
    NUL); the node gets no record (the session is as it
    was), [variablesFound_] is not incremented, and the visitor answers
    "continue", so the walk goes on with the remaining nodes.  A throw
    while converting the value to the payload text is handled by the
    emitter instead: the record is routed to [Failure],
    [variablesFound_] is incremented, and the walk goes on as well. *)
Theorem C1_read_failure_isolated env context ref path w rest :
  is_variable (nodeClass ref) = true ->
  (forall e, getNodeData env ref = inl e ->
     let w' :=
       mkWorld (count_node (self w)) (session w)
         (trace w ++
          [EvGetNodeData ref;
           EvLog WARN ("Caught Exception while trying to get data from node &s: "
                       +:+ Str.c_str (path +:+ "/" +:+ browseName ref))]) in
     nodeFoundCallBack env context ref path w = (Ok true, w') /\
     variablesFound_ (self w') = variablesFound_ (self w) /\
     visit_all (nodeFoundCallBack env context) ((ref, path) :: rest) w =
     visit_all (nodeFoundCallBack env context) rest w') /\
  (forall nodedata attrs0 e,
     getNodeData env ref = inr nodedata ->
     create env (length (flowfiles (session w))) = Some attrs0 ->
     data nodedata <> [] ->
     nodeValue2String env nodedata = inl e ->
     exists w',
       nodeFoundCallBack env context ref path w = (Ok true, w') /\
       variablesFound_ (self w') = (variablesFound_ (self w) + 1)%N /\
       transfers (session w') =
         transfers (session w) ++ [(length (flowfiles (session w)), Failure)] /\
       visit_all (nodeFoundCallBack env context) ((ref, path) :: rest) w =
       visit_all (nodeFoundCallBack env context) rest w').
Proof.
  intros Hv. split.
  - intros e He w'.
    pose proof (nodeFoundCallBack_read_throws env context ref path w e Hv He) as Heq.
    split; [exact Heq|]. split; [done|].
    cbn [visit_all]. unfold bind. by rewrite Heq.
  - intros nodedata attrs0 e Hd Hc Hne Hconv.
    destruct (nodeFoundCallBack_created env context ref path w nodedata attrs0 Hv Hd Hc)
      as (content & evs & Heq & _).
    eexists. split; [exact Heq|]. split; [done|]. split.
    + cbn [session transfers]. unfold outlet, payload_throws. rewrite Hconv.
      destruct (data nodedata); [done|]. done.
    + cbn [visit_all]. unfold bind. by rewrite Heq.
Qed.

Lemma C1_witness :
  let env := Plant.server [Plant.t_nul_x] [] false in
  let ref := Plant.variable Plant.t_nul_x in
  let w' :=
    mkWorld (count_node (self Plant.start)) (session Plant.start)
      [EvGetNodeData ref;
       EvLog WARN "Caught Exception while trying to get data from node &s: /Sensors/Line1/t"] in
  nodeFoundCallBack env Plant.by_path ref "/Sensors/Line1" Plant.start = (Ok true, w') /\
  variablesFound_ (self w') = variablesFound_ (self Plant.start) /\
  visit_all (nodeFoundCallBack env Plant.by_path)
    [(ref, "/Sensors/Line1"); (Plant.variable "t3", "/Sensors/Line1")] Plant.start =
  visit_all (nodeFoundCallBack env Plant.by_path)
    [(Plant.variable "t3", "/Sensors/Line1")] w'.
Proof.
  intros env ref.
  apply (proj1 (C1_read_failure_isolated env Plant.by_path ref "/Sensors/Line1" Plant.start
                  [(Plant.variable "t3", "/Sensors/Line1")] eq_refl)
           (mkExn "BadNodeIdUnknown")).
  reflexivity.
Defined.

(** C5 (as stated, refuted).  With a session that hands out a null
    record, the visitor still increments [variablesFound_] for the
    node. *)
Lemma C5_null_record_counterexample :
  let env := Plant.single true in
  let ref := Plant.variable "t1" in
  create env (length (flowfiles (session Plant.start))) = None /\
  exists w',
    nodeFoundCallBack env Plant.by_path ref "/Sensors" Plant.start = (Ok true, w') /\
    session w' = session Plant.start /\
    variablesFound_ (self Plant.start) = 0%N /\
    variablesFound_ (self w') = 1%N.
Proof.
  by_evaluation.
Qed.

(** C5 (amended).  For a variable node whose data was read, a null
    record handle is logged as an error and the node is skipped by the
    emitter: no attribute is copied, no payload written, nothing routed,
    and the session is as it was.  The visitor still counts the node:
    both [nodesFound_] and [variablesFound_] are incremented. *)
Theorem C5_null_record_skips_emission env context ref path w nodedata :
  is_variable (nodeClass ref) = true ->
  getNodeData env ref = inr nodedata ->
  create env (length (flowfiles (session w))) = None ->
  exists w',
    nodeFoundCallBack env context ref path w = (Ok true, w') /\
    session w' = session w /\
    trace w' =
      trace w ++ [EvGetNodeData ref; EvCreate; EvLog ERROR "Failed to create flowfile!"] /\
    nodesFound_ (self w') = (nodesFound_ (self w) + 1)%N /\
    variablesFound_ (self w') = (variablesFound_ (self w) + 1)%N.
Proof.
  intros Hv Hd Hc. eexists. split; [by eapply nodeFoundCallBack_null|]. done.
Qed.

Lemma C5_witness :
  exists w',
    nodeFoundCallBack (Plant.single true) Plant.by_path (Plant.variable "t1") "/Sensors"
      Plant.start = (Ok true, w') /\
    session w' = session Plant.start /\
    trace w' =
      trace Plant.start ++
      [EvGetNodeData (Plant.variable "t1"); EvCreate;
       EvLog ERROR "Failed to create flowfile!"] /\
    nodesFound_ (self w') = (nodesFound_ (self Plant.start) + 1)%N /\
    variablesFound_ (self w') = (variablesFound_ (self Plant.start) + 1)%N.
Proof.
  apply (C5_null_record_skips_emission (Plant.single true) Plant.by_path
           (Plant.variable "t1") "/Sensors" Plant.start (Plant.reading "t1"));
    reflexivity.
Defined.

(** C3 (defect).  A node-identifier type that is none of [Path], [Int],
    [String] is logged as an error, but scheduling goes on with the type
    left from before: rescheduling a processor that ran in [Path] mode
    with the type "Bogus" ends with [configOK_] set, and the next
    trigger connects. *)
Theorem C3_unrecognized_type_still_configured :
  let env := Plant.server [] [] false in
  let w1 := Plant.scheduled_with env Plant.by_path in
  let w2 := (onSchedule env Plant.by_bogus_type w1).2 in
  getProperty_string Plant.by_bogus_type (getName NodeIDType) = Some "Bogus" /\
  idType_ (self w1) = opc.Path /\
  onSchedule env Plant.by_bogus_type w1 = (Ok tt, w2) /\
  configOK_ (self w2) = true /\
  trace w2 =
    trace w1 ++
    [EvLog TRACE "FetchOPCProcessor::onSchedule"; EvBaseOnSchedule;
     EvLog ERROR "Bogus is not a valid node ID type!"] /\
  count is_reconnect (trace (onTrigger env Plant.by_bogus_type w2).2) = 1%nat.
Proof. by_evaluation. Qed.

(** C4 (as stated, refuted).  With type [Int], node id "42" and no
    namespace index configured, the schedule ends with [configOK_] set
    (the index is 0) and the next trigger makes a connection attempt. *)
Lemma C4_omitted_index_counterexample :
  let env := Plant.server [] [] false in
  let w1 := (onSchedule env Plant.by_int_no_index Plant.start).2 in
  let w2 := (onTrigger env Plant.by_int_no_index w1).2 in
  configOK_ (self w1) = true /\
  nameSpaceIdx_ (self w1) = 0 /\
  count is_reconnect (trace w2) = 1%nat /\
  count is_yield (trace w2) = 0%nat.
Proof. by_evaluation. Qed.

Lemma hostLookup_initialize base settings name :
  In name ["Node ID"; "Node ID type"; "Namespace index"; "Max depth"] ->
  hostLookup (initialize base) settings name =
    match settings !! name with
    | Some v => Some v
    | None => if String.eqb name "Namespace index" || String.eqb name "Max depth"
              then Some "0" else None
    end.
Proof.
  intros [<-|[<-|[<-|[<-|[]]]]]; unfold hostLookup; cbn; by case_match.
Qed.

(** C4 (amended).  With type [Int], node id "42" and the namespace index
    left out by the user, the property answers with its declared default
    0: scheduling leaves the configuration valid (once the base class's
    set-up succeeded), with namespace index 0, and the next trigger
    invocation goes on to the connection attempt. *)
Theorem C4_omitted_index_defaults_to_zero env base settings w :
  base_onSchedule env (hostContext (initialize base) settings) = true ->
  settings !! "Node ID type" = Some "Int" ->
  settings !! "Node ID" = Some "42" ->
  settings !! "Namespace index" = None ->
  onTriggerMutex_ (self w) = false ->
  let context := hostContext (initialize base) settings in
  exists w1 r w2 evs,
    onSchedule env context w = (Ok tt, w1) /\
    configOK_ (self w1) = true /\
    idType_ (self w1) = opc.Int /\
    nodeID_ (self w1) = "42" /\
    nameSpaceIdx_ (self w1) = 0 /\
    onTrigger env context w1 = (r, w2) /\
    trace w2 = trace w1 ++ EvLog TRACE "FetchOPCProcessor::onTrigger" :: EvReconnect :: evs.
Proof.
  intros Hb Ht Hid Hns Hm context.
  destruct (onSchedule_int_configured env context w "42" 42 0)
    as (w1 & Hs & Hok & Hty & Hn & Hi & Hm1); try done.
  { subst context. unfold hostContext, getProperty_string. cbn [getName NodeIDType].
    rewrite hostLookup_initialize by (cbn; auto). by rewrite Ht. }
  { subst context. unfold hostContext, getProperty_string. cbn [getName NodeID].
    rewrite hostLookup_initialize by (cbn; auto). by rewrite Hid. }
  { subst context. unfold hostContext, getProperty_int32. cbn [getName NameSpaceIndex].
    rewrite hostLookup_initialize by (cbn; auto). by rewrite Hns. }
  rewrite Hm in Hm1.
  destruct (onTrigger_connects env context w1 Hok Hm1) as (r & w2 & evs & Heq & Htr).
  exists w1, r, w2, evs. done.
Qed.

Lemma C4_witness :
  let env := Plant.server [] [] false in
  let context := Plant.by_int_no_index in
  exists w1 r w2 evs,
    onSchedule env context Plant.start = (Ok tt, w1) /\
    configOK_ (self w1) = true /\
    idType_ (self w1) = opc.Int /\
    nodeID_ (self w1) = "42" /\
    nameSpaceIdx_ (self w1) = 0 /\
    onTrigger env context w1 = (r, w2) /\
    trace w2 = trace w1 ++ EvLog TRACE "FetchOPCProcessor::onTrigger" :: EvReconnect :: evs.
Proof.
  intros env context.
  apply (C4_omitted_index_defaults_to_zero env []
           {[ "Node ID" := "42"; "Node ID type" := "Int" ]} Plant.start);
    vm_compute; reflexivity.
Defined.

(** C6.  In [Path] mode, within one configuration generation: the first
    invocation, on an empty cache, issues one translation request and
    caches the references it returns (one at least, for the translation
    to count as resolved); the second invocation issues none,
    whatever the server would answer by then, and traverses from the
    same cached references, which stay in the cache.  Scheduling always
    empties the cache; an invocation never does: after it the cache is
    what it was, or it was empty and now holds what a good translation
    returned (so a failed translation leaves it empty). *)
Theorem C6_path_resolution_is_cached :
  (forall env1 env2 context w ids,
     configOK_ (self w) = true ->
     onTriggerMutex_ (self w) = false ->
     idType_ (self w) = opc.Path ->
     translatedNodeIDs_ (self w) = [] ->
     reconnect env1 = true ->
     reconnect env2 = true ->
     translateBrowsePathsToNodeIdsRequest env1 (nodeID_ (self w)) = inr ids ->
     ids <> [] ->
     exists w1 evs1 w2 evs2,
       onTrigger env1 context w = (Ok tt, w1) /\
       trace w1 = trace w ++ evs1 /\
       count is_translate evs1 = 1%nat /\
       traversed_roots evs1 = ids /\
       translatedNodeIDs_ (self w1) = ids /\
       onTrigger env2 context w1 = (Ok tt, w2) /\
       trace w2 = trace w1 ++ evs2 /\
       count is_translate evs2 = 0%nat /\
       traversed_roots evs2 = ids /\
       translatedNodeIDs_ (self w2) = ids) /\
  (forall env context w r w',
     onSchedule env context w = (r, w') -> translatedNodeIDs_ (self w') = []) /\
  (forall env context w r w',
     onTrigger env context w = (r, w') ->
     translatedNodeIDs_ (self w') = translatedNodeIDs_ (self w) \/
     translatedNodeIDs_ (self w) = [] /\
     translateBrowsePathsToNodeIdsRequest env (nodeID_ (self w))
       = inr (translatedNodeIDs_ (self w'))).
Proof.
  split; [|split].
  - intros env1 env2 context w ids Hok Hm Ht Hc Hr1 Hr2 Hs Hne.
    assert (Hin1 : enters_traversal env1 (connected (acquired w)) ids (nodeID_ (self w))
                     (mkWorld (set_translatedNodeIDs ids (self (connected (acquired w))))
                        (session (connected (acquired w)))
                        (trace (connected (acquired w)) ++ [EvTranslate (nodeID_ (self w))]))).
    { by apply (enter_translated env1 (connected (acquired w)) ids). }
    destruct (onTrigger_traverses_summary env1 context w _ _ _ Hok Hm Hr1 Hin1)
      as (w1 & evs1 & dv1 & dt1 & Heq1 & Htr1 & Hroots1 & _ & Hx1 & _ & Hcache1 & _).
    rewrite bool_decide_true in Hx1 by done.
    cbn [self set_translatedNodeIDs translatedNodeIDs_] in Hcache1.
    destruct (onTrigger_frame env1 context w _ _ Heq1) as (F1 & F2 & F3 & F4 & _).
    assert (Hin2 : enters_traversal env2 (connected (acquired w1))
                     (translatedNodeIDs_ (self (connected (acquired w1))))
                     (nodeID_ (self (connected (acquired w1)))) (connected (acquired w1))).
    { apply enter_cached; unfold connected, acquired, start_walk; fields; congruence. }
    assert (Hok1 : configOK_ (self w1) = true) by congruence.
    assert (Hm1 : onTriggerMutex_ (self w1) = false) by congruence.
    destruct (onTrigger_traverses_summary env2 context w1 _ _ _ Hok1 Hm1 Hr2 Hin2)
      as (w2 & evs2 & dv2 & dt2 & Heq2 & Htr2 & Hroots2 & _ & Hx2 & _ & Hcache2 & _).
    rewrite bool_decide_false in Hx2 by (intros [_ ?]; congruence).
    unfold connected, acquired, start_walk in Hroots2, Hcache2. fields.
    eexists w1, _, w2, _.
    split; [exact Heq1|]. split; [exact Htr1|].
    split; [done|]. split; [done|]. split; [done|].
    split; [exact Heq2|]. split; [exact Htr2|].
    split; [done|]. split; [cbn; congruence|congruence].
  - intros env context w r w'. apply onSchedule_clears_cache.
  - intros env context w r w' H. by apply onTrigger_frame in H as (_ & _ & _ & _ & ?).
Qed.

Lemma C6_witness :
  let env := Plant.server [] [] false in
  let w := Plant.scheduled_with env Plant.by_path in
  exists w1 evs1 w2 evs2,
    onTrigger env Plant.by_path w = (Ok tt, w1) /\
    trace w1 = trace w ++ evs1 /\
    count is_translate evs1 = 1%nat /\
    traversed_roots evs1 = [Plant.sensors] /\
    translatedNodeIDs_ (self w1) = [Plant.sensors] /\
    onTrigger (Plant.single false) Plant.by_path w1 = (Ok tt, w2) /\
    trace w2 = trace w1 ++ evs2 /\
    count is_translate evs2 = 0%nat /\
    traversed_roots evs2 = [Plant.sensors] /\
    translatedNodeIDs_ (self w2) = [Plant.sensors].
Proof.
  intros env w.
  apply (proj1 C6_path_resolution_is_cached env (Plant.single false) Plant.by_path w
           [Plant.sensors]); try (vm_compute; reflexivity).
  discriminate.
Defined.




(** C10.  In [Int] mode, a processor that was scheduled and whose
    configuration is valid holds a node id that parses: the conversion
    in [onTrigger] returns a number, and the invocation ends normally,
    never by the conversion's exception. *)
Theorem C10_int_identifier_parses_in_trigger env context w :
  scheduled (self w) ->
  configOK_ (self w) = true ->
  idType_ (self w) = opc.Int ->
  (exists n, Str.stoi (nodeID_ (self w)) = inr n) /\
  exists w', onTrigger env context w = (Ok tt, w').
Proof.
  intros Hs Hok Ht.
  destruct (scheduled_int_parses _ Hs Hok Ht) as (n & Hn).
  split; [eauto|].
  destruct (onTriggerMutex_ (self w)) eqn:Hm.
  { rewrite onTrigger_busy by done. eauto. }
  destruct (reconnect env) eqn:Hr.
  2:{ rewrite onTrigger_acquires by done.
      rewrite onTrigger_locked_disconnected by done. eauto. }
  assert (Hin : enters_traversal env (connected (acquired w))
                  [mkNodeId (to_UInt16 (nameSpaceIdx_ (self (connected (acquired w)))))
                     (UA_NODEIDTYPE_NUMERIC (to_UInt32 n))] "" (connected (acquired w))).
  { by apply enter_int. }
  destruct (onTrigger_traverses env context w _ _ _ Hok Hm Hr Hin) as (w2 & _ & Heq).
  eauto.
Qed.

Lemma C10_witness :
  let env := Plant.server [] [] false in
  let w := Plant.scheduled_with env Plant.by_int_no_index in
  (exists n, Str.stoi (nodeID_ (self w)) = inr n) /\
  exists w', onTrigger env Plant.by_int_no_index w = (Ok tt, w').
Proof.
  intros env w.
  apply (C10_int_identifier_parses_in_trigger env Plant.by_int_no_index w);
    [|vm_compute; reflexivity|vm_compute; reflexivity].
  assert (H : onSchedule env Plant.by_int_no_index Plant.start = (Ok tt, w))
    by (vm_compute; reflexivity).
  exact (scheduled_onSchedule env Plant.by_int_no_index Plant.start (Ok tt) w H).
Defined.

(** * Further properties *)

(** ** The record emitter, in full *)

Lemma foldl_insert_union (attrs m : gmap string string) :
  foldl (fun m kv => <[kv.1 := kv.2]> m) m (map_to_list attrs) = attrs ∪ m.
Proof.
  apply map_eq. intros k. rewrite lookup_union.
  destruct (attrs !! k) as [v|] eqn:Hk.
  - rewrite (foldl_insert_in _ _ k v).
    + by destruct (m !! k).
    + apply NoDup_fst_map_to_list.
    + by apply elem_of_map_to_list.
  - rewrite foldl_insert_notin.
    + by destruct (m !! k).
    + intros Hin. apply list_elem_of_fmap in Hin as [[k' v'] [-> Hin]].
      apply elem_of_map_to_list in Hin. cbn in Hk. congruence.
Qed.

Lemma writes_app t1 t2 : writes (t1 ++ t2) = writes t1 ++ writes t2.
Proof. induction t1 as [|e t1 IH]; [done|]. destruct e; cbn; by rewrite ?IH. Qed.

Lemma reads_app t1 t2 : reads (t1 ++ t2) = reads t1 ++ reads t2.
Proof. induction t1 as [|e t1 IH]; [done|]. destruct e; cbn; by rewrite ?IH. Qed.

Lemma traverse_calls_app t1 t2 :
  traverse_calls (t1 ++ t2) = traverse_calls t1 ++ traverse_calls t2.
Proof. induction t1 as [|e t1 IH]; [done|]. destruct e; cbn; by rewrite ?IH. Qed.

Lemma writes_setAttributes h (l : list (string * string)) :
  writes ((fun kv => EvSetAttribute h kv.1 kv.2) <$> l) = [].
Proof. induction l as [|kv l IH]; [done|]. by cbn. Qed.

Lemma reads_setAttributes h (l : list (string * string)) :
  reads ((fun kv => EvSetAttribute h kv.1 kv.2) <$> l) = [].
Proof. induction l as [|kv l IH]; [done|]. by cbn. Qed.

Ltac solve_events :=
  unfold walk_events, visit_events;
  repeat rewrite ?Forall_app, ?Forall_cons, ?Forall_nil, ?Forall_fmap;
  repeat split; try done;
  try (apply Forall_forall; intros; done).

Ltac solve_event_lists :=
  cbn;
  rewrite ?writes_app, ?reads_app, ?writes_setAttributes, ?reads_setAttributes;
  done.

(** The record [OPCData2FlowFile] leaves behind, and what it asked of
    the session on the way. *)
Lemma OPCData2FlowFile_record env opcnode context w attrs0 :
  create env (length (flowfiles (session w))) = Some attrs0 ->
  let h := length (flowfiles (session w)) in
  exists evs,
    OPCData2FlowFile env opcnode context w =
      (Ok tt,
       mkWorld (self w)
         (mkSession
            (flowfiles (session w) ++
               [mkFlowFile (nd_attributes opcnode ∪ attrs0) (payload_of env h opcnode)])
            (transfers (session w) ++ [(h, outlet env h opcnode)]))
         (trace w ++ evs)) /\
    visit_events evs /\
    writes evs = writes_of env h opcnode /\
    reads evs = [].
Proof.
  intros H h. unfold OPCData2FlowFile, session_create.
  unfold bind at 1. unfold bind at 1. unfold emit at 1. unfold bind at 1.
  unfold get_session at 1. cbn [self session trace].
  rewrite H. unfold bind at 1. unfold modify_session at 1. unfold ret at 1.
  cbn [self session trace flowfiles transfers].
  unfold bind at 1. rewrite setAttribute_loop. cbn [self session trace flowfiles transfers].
  rewrite alter_last. unfold set_attrs. cbn [ff_attributes ff_content].
  rewrite foldl_insert_union.
  fold h. unfold outlet, payload_throws, payload_of, writes_of.
  destruct (0 <? length (data opcnode))%nat eqn:Hd; cbn [andb].
  - destruct (nodeValue2String env opcnode) as [e|payload] eqn:Hconv.
    + unfold session_write, transfer, getAttribute. run_monad. cbn.
      eexists. split; [rewrite <- !app_assoc; cbn; reflexivity|].
      split; [solve_events|].
      split; solve_event_lists.
    + destruct (write env h payload) as [e|] eqn:Hw.
      * unfold session_write, transfer, getAttribute. run_monad. cbn.
        subst h. rewrite Hw. cbn.
        eexists. split; [rewrite <- !app_assoc; cbn; reflexivity|].
        split; [solve_events|].
        split; solve_event_lists.
      * unfold session_write, transfer, getAttribute. run_monad. cbn.
        subst h. rewrite Hw. cbn. rewrite alter_last. cbn.
        eexists. split; [rewrite <- !app_assoc; cbn; reflexivity|].
        split; [solve_events|].
        split; solve_event_lists.
  - unfold transfer. run_monad. cbn.
    eexists. split; [rewrite <- !app_assoc; cbn; reflexivity|].
    split; [solve_events|].
    split; solve_event_lists.
Qed.

(** ** Visits, counted exactly *)

Lemma nodeFoundCallBack_record env context ref path w nodedata attrs0 :
  is_variable (nodeClass ref) = true ->
  getNodeData env ref = inr nodedata ->
  create env (length (flowfiles (session w))) = Some attrs0 ->
  let h := length (flowfiles (session w)) in
  exists evs,
    nodeFoundCallBack env context ref path w =
      (Ok true,
       mkWorld (count_variable (count_node (self w)))
         (mkSession
            (flowfiles (session w) ++
               [mkFlowFile (nd_attributes nodedata ∪ attrs0) (payload_of env h nodedata)])
            (transfers (session w) ++ [(h, outlet env h nodedata)]))
         (trace w ++ EvGetNodeData ref :: evs)) /\
    visit_events evs /\
    writes evs = writes_of env h nodedata /\
    reads evs = [].
Proof.
  intros Hv Hd Hc h. unfold nodeFoundCallBack, connection_getNodeData.
  unfold bind at 1. unfold modify_self at 1. rewrite Hv.
  unfold bind at 1. unfold try_catch. unfold bind at 1. unfold bind at 1.
  unfold emit at 1. cbn [self session trace]. rewrite Hd. unfold ret at 1.
  unfold bind at 1.
  destruct (OPCData2FlowFile_record env nodedata context
              (mkWorld (count_node (self w)) (session w) (trace w ++ [EvGetNodeData ref]))
              attrs0 Hc) as (evs & Heq & Hevs & Hw & Hr).
  unfold count_node in Heq. cbn [self session trace] in Heq. rewrite Heq.
  exists evs. split; [|done]. run_monad. cbn [self session trace].
  by rewrite app_assoc_cons.
Qed.

Lemma routed_once_grows s record h rel :
  h = length (flowfiles s) ->
  routed_once s ->
  routed_once (mkSession (flowfiles s ++ [record]) (transfers s ++ [(h, rel)])).
Proof.
  unfold routed_once. intros -> H. cbn.
  rewrite fmap_app, length_app, H. cbn. by rewrite Nat.add_1_r, seq_S.
Qed.

Lemma tallied_refl env w : tallied env [] [] w w.
Proof.
  split; [cbn; lia| |done].
  exists []. by rewrite app_nil_r.
Qed.

Lemma count_readable_app env found1 found2 :
  count_readable env (found1 ++ found2) =
  (count_readable env found1 + count_readable env found2)%nat.
Proof. unfold count_readable. by rewrite List.filter_app, length_app. Qed.

Lemma variables_of_app found1 found2 :
  variables_of (found1 ++ found2) = variables_of found1 ++ variables_of found2.
Proof. unfold variables_of. by rewrite List.filter_app, fmap_app. Qed.

Lemma tallied_trans env found1 found2 calls1 calls2 w1 w2 w3 :
  tallied env found1 calls1 w1 w2 -> tallied env found2 calls2 w2 w3 ->
  tallied env (found1 ++ found2) (calls1 ++ calls2) w1 w3.
Proof.
  intros [V1 (e1 & T1 & C1 & R1) S1] [V2 (e2 & T2 & C2 & R2) S2].
  split.
  - rewrite V2, V1, count_readable_app. lia.
  - exists (e1 ++ e2). rewrite T2, T1, traverse_calls_app, reads_app, variables_of_app.
    rewrite C1, C2, R1, R2. by rewrite app_assoc.
  - auto.
Qed.

Lemma visit_events_no_traverse evs : visit_events evs -> traverse_calls evs = [].
Proof.
  induction 1 as [|e evs He _ IH]; [done|]. by destruct e.
Qed.

Lemma nodeFoundCallBack_tallied env context ref path w :
  exists w', nodeFoundCallBack env context ref path w = (Ok true, w') /\
             tallied env [(ref, path)] [] w w'.
Proof.
  destruct (is_variable (nodeClass ref)) eqn:Hv.
  - destruct (getNodeData env ref) as [e|nodedata] eqn:Hd.
    + eexists. split; [by eapply nodeFoundCallBack_read_throws|].
      split; cbn [self session trace].
      * unfold count_readable, readable. cbn. rewrite Hv, Hd. cbn. lia.
      * eexists. split; [done|]. unfold variables_of. cbn. by rewrite Hv.
      * done.
    + destruct (create env (length (flowfiles (session w)))) as [attrs0|] eqn:Hc.
      * destruct (nodeFoundCallBack_record env context ref path w nodedata attrs0 Hv Hd Hc)
          as (evs & Heq & Hevs & _ & Hr).
        eexists. split; [exact Heq|].
        split; cbn [self session trace].
        -- unfold count_readable, readable. cbn. rewrite Hv, Hd. cbn. lia.
        -- eexists. split; [done|]. cbn. rewrite Hr.
           rewrite (visit_events_no_traverse _ Hevs). unfold variables_of. cbn.
           by rewrite Hv.
        -- by apply routed_once_grows.
      * eexists. split; [by eapply nodeFoundCallBack_null|].
        split; cbn [self session trace].
        -- unfold count_readable, readable. cbn. rewrite Hv, Hd. cbn. lia.
        -- eexists. split; [done|]. unfold variables_of. cbn. by rewrite Hv.
        -- done.
  - eexists. split; [by eapply nodeFoundCallBack_other|].
    split; cbn [self session trace].
    + unfold count_readable, readable. cbn. rewrite Hv. cbn. lia.
    + exists []. rewrite app_nil_r. unfold variables_of. cbn. by rewrite Hv.
    + done.
Qed.

Lemma visit_all_tallied env context found w :
  exists w', visit_all (nodeFoundCallBack env context) found w = (Ok tt, w') /\
             tallied env found [] w w'.
Proof.
  revert w. induction found as [|[ref path] found IH]; intros w.
  - exists w. split; [done|apply tallied_refl].
  - destruct (nodeFoundCallBack_tallied env context ref path w) as (w1 & Heq & Hw1).
    destruct (IH w1) as (w2 & Heq2 & Hw2).
    exists w2. split.
    + cbn [visit_all]. unfold bind. rewrite Heq. exact Heq2.
    + change ((ref, path) :: found) with ([(ref, path)] ++ found).
      change (@nil (UA_NodeId * string * N)) with (@nil (UA_NodeId * string * N) ++ []).
      eapply tallied_trans; eauto.
Qed.

Lemma connection_traverse_tallied env context root basePath maxDepth w :
  exists w',
    connection_traverse env root (nodeFoundCallBack env context) basePath maxDepth w
      = (Ok tt, w') /\
    tallied env (discovered env root basePath maxDepth) [(root, basePath, maxDepth)] w w'.
Proof.
  unfold connection_traverse. unfold bind, emit.
  destruct (visit_all_tallied env context (discovered env root basePath maxDepth)
              (mkWorld (self w) (session w) (trace w ++ [EvTraverse root basePath maxDepth])))
    as (w' & Heq & [V (evs & T & C & R) S]).
  exists w'. split; [done|]. cbn [self session trace] in *.
  split; [done| |done].
  exists (EvTraverse root basePath maxDepth :: evs). rewrite T, <- app_assoc. cbn.
  by rewrite C, R.
Qed.

Lemma traverse_roots_tallied env context roots basePath maxDepth w :
  exists w',
    for_each roots
      (fun nodeID =>
         connection_traverse env nodeID (nodeFoundCallBack env context) basePath maxDepth) w
      = (Ok tt, w') /\
    tallied env (discovered_below env roots basePath maxDepth)
      ((fun root => (root, basePath, maxDepth)) <$> roots) w w'.
Proof.
  revert w. induction roots as [|root roots IH]; intros w.
  - exists w. split; [done|apply tallied_refl].
  - destruct (connection_traverse_tallied env context root basePath maxDepth w)
      as (w1 & Heq1 & Hw1).
    destruct (IH w1) as (w2 & Heq2 & Hw2).
    exists w2. split.
    + cbn [for_each]. unfold bind. rewrite Heq1. exact Heq2.
    + unfold discovered_below. cbn [fmap list_fmap concat].
      change ((root, basePath, maxDepth) :: ((fun root => (root, basePath, maxDepth)) <$> roots))
        with ([(root, basePath, maxDepth)] ++ ((fun root => (root, basePath, maxDepth)) <$> roots)).
      eapply tallied_trans; eauto.
Qed.

(** ** Invocations, case by case *)

Lemma release_acquired p :
  onTriggerMutex_ p = false ->
  set_onTriggerMutex false (set_onTriggerMutex true p) = p /\
  set_onTriggerMutex false (start_walk (set_onTriggerMutex true p)) = start_walk p.
Proof. destruct p; cbn. by intros ->. Qed.

Lemma reaches_roots_enters env w :
  reaches_roots env w ->
  exists w1,
    enters_traversal env (connected (acquired w)) (trigger_roots env (self w))
      (trigger_label (self w)) w1.
Proof.
  intros (Hok & Hm & Hr & Hparse & Hres).
  unfold trigger_roots, trigger_label.
  destruct (idType_ (self w)) eqn:Ht.
  - destruct (translatedNodeIDs_ (self w)) as [|id ids] eqn:Hc.
    + destruct (translateBrowsePathsToNodeIdsRequest env (nodeID_ (self w)))
        as [sc|ids] eqn:Hs.
      * rewrite (Hres eq_refl eq_refl sc eq_refl) in Hs.
        eexists. by apply (enter_nothing env (connected (acquired w))).
      * eexists. by apply (enter_translated env (connected (acquired w)) ids).
    + eexists. rewrite <- Hc.
      apply (enter_cached env (connected (acquired w))); cbn; [done|]. by rewrite Hc.
  - destruct (Hparse eq_refl) as (n & Hn). rewrite Hn.
    eexists. by apply (enter_int env (connected (acquired w)) n).
  - eexists. by apply (enter_string env (connected (acquired w))).
Qed.

Lemma enters_traversal_quiet env w0 roots basePath w1 :
  enters_traversal env w0 roots basePath w1 ->
  exists evs, trace w1 = trace w0 ++ evs /\ traverse_calls evs = [] /\ reads evs = [] /\
              writes evs = [].
Proof.
  destruct 1; cbn [trace]; try (exists []; by rewrite app_nil_r); by eexists.
Qed.

Lemma conclusion_silent p :
  traverse_calls (conclusion p) = [] /\ reads (conclusion p) = [] /\
  (length (List.filter is_yield (conclusion p)) <= 1)%nat.
Proof. unfold conclusion. repeat case_match; cbn; repeat split; lia. Qed.

(** An invocation that reaches its roots: where the walk starts, where it
    ends, and what [onTrigger] returns. *)
Lemma onTrigger_tallied env context w :
  reaches_roots env w ->
  let roots := trigger_roots env (self w) in
  let label := trigger_label (self w) in
  let found := discovered_below env roots label (maxDepth_ (self w)) in
  exists w1 w2,
    enters_traversal env (connected (acquired w)) roots label w1 /\
    walked env roots (length found) w1 w2 /\
    tallied env found ((fun root => (root, label, maxDepth_ (self w))) <$> roots) w1 w2 /\
    onTrigger env context w = (Ok tt, released (conclude w2)).
Proof.
  intros Hreach roots label found.
  destruct (reaches_roots_enters env w Hreach) as (w1 & Hin).
  destruct Hreach as (Hok & Hm & Hr & _ & _).
  destruct (onTrigger_locked_traverses env context (acquired w) roots label w1 Hr Hin)
    as (w2 & Heq & Hw & Hres).
  destruct (traverse_roots_tallied env context roots label (maxDepth_ (self w)) w1)
    as (w2' & Heq' & Ht).
  cbn [acquired self maxDepth_ set_onTriggerMutex] in Heq.
  assert (w2' = w2) as -> by congruence.
  exists w1, w2. split; [done|]. split; [done|]. split; [done|].
  rewrite onTrigger_acquires by done. by rewrite Hres.
Qed.

(** Every way an invocation can go. *)
Lemma onTrigger_cases env context w :
  (configOK_ (self w) = false /\
   onTrigger env context w =
     (Ok tt, mkWorld (self w) (session w) (trace w ++ unconfigured_events))) \/
  (configOK_ (self w) = true /\ onTriggerMutex_ (self w) = true /\
   onTrigger env context w =
     (Ok tt,
      mkWorld (self w) (session w)
        (trace w ++
         [EvLog TRACE "FetchOPCProcessor::onTrigger";
          EvLog WARN "processor was triggered before previous listing finished, configuration should be revised!"]))) \/
  (configOK_ (self w) = true /\ onTriggerMutex_ (self w) = false /\
   reconnect env = false /\
   onTrigger env context w =
     (Ok tt,
      mkWorld (self w) (session w)
        (trace w ++ [EvLog TRACE "FetchOPCProcessor::onTrigger"; EvReconnect; EvYield]))) \/
  (configOK_ (self w) = true /\ onTriggerMutex_ (self w) = false /\
   reconnect env = true /\ idType_ (self w) = opc.Int /\
   exists e,
     Str.stoi (nodeID_ (self w)) = inl e /\
     onTrigger env context w =
       (Throw (mkExn (Str.stoi_what e)),
        mkWorld (start_walk (self w)) (session w)
          (trace w ++ [EvLog TRACE "FetchOPCProcessor::onTrigger"; EvReconnect]))) \/
  (configOK_ (self w) = true /\ onTriggerMutex_ (self w) = false /\
   reconnect env = true /\ idType_ (self w) = opc.Path /\
   translatedNodeIDs_ (self w) = [] /\
   exists sc,
     translateBrowsePathsToNodeIdsRequest env (nodeID_ (self w)) = inl sc /\
     sc <> UA_STATUSCODE_GOOD /\
     onTrigger env context w =
       (Ok tt,
        mkWorld (start_walk (self w)) (session w)
          (trace w ++
           [EvLog TRACE "FetchOPCProcessor::onTrigger"; EvReconnect;
            EvTranslate (nodeID_ (self w));
            EvLog ERROR
              (Str.format
                 "Failed to translate %s to node id, no flow files will be generated (%s)"
                 [Str.c_str (nodeID_ (self w)); UA_StatusCode_name env sc]);
            EvYield]))) \/
  reaches_roots env w.
Proof.
  destruct (configOK_ (self w)) eqn:Hok.
  2:{ left. split; [done|]. by apply onTrigger_unconfigured. }
  destruct (onTriggerMutex_ (self w)) eqn:Hm.
  { right; left. split; [done|]. split; [done|]. by apply onTrigger_busy. }
  destruct (release_acquired (self w) Hm) as (Hrel1 & Hrel2).
  destruct (onTrigger_locked_cases env (acquired w))
    as [Hr|[(Hr & Ht & e & Hs)|[(Hr & Ht & Hc & sc & Hs & Hsc)|(Hr & roots & bp & w1 & Hin)]]].
  - right; right; left. repeat (split; [done|]).
    rewrite onTrigger_acquires by done.
    rewrite onTrigger_locked_disconnected by done.
    unfold released, acquired. fields. rewrite Hrel1. by rewrite <- app_assoc.
  - right; right; right; left. repeat (split; [done|]). exists e. split; [done|].
    rewrite onTrigger_acquires by done.
    rewrite (onTrigger_locked_stoi_throws _ _ _ e) by done.
    unfold released, connected, acquired. fields. rewrite Hrel2. by rewrite <- app_assoc.
  - right; right; right; right; left. repeat (split; [done|]). exists sc.
    split; [done|]. split; [done|].
    rewrite onTrigger_acquires by done.
    rewrite (onTrigger_locked_unresolved _ _ _ sc) by done.
    unfold released, acquired. fields. rewrite Hrel2. by rewrite <- app_assoc.
  - right; right; right; right; right.
    split; [done|]. split; [done|]. split; [done|]. split.
    + intros Ht. destruct (Str.stoi (nodeID_ (self w))) as [e|n] eqn:Hs; [|eauto].
      inversion Hin; subst; cbn in *; congruence.
    + intros Ht Hc sc Hs.
      inversion Hin; subst; cbn in *; congruence.
Qed.
(** ** The counters along the walk of an invocation *)

Lemma count_readable_cons env ref path found :
  count_readable env ((ref, path) :: found) =
    ((if readable env ref then 1 else 0) + count_readable env found)%nat.
Proof. unfold count_readable. cbn. by destruct (readable env ref). Qed.

Lemma nodeFoundCallBack_counts env context ref path w w' :
  nodeFoundCallBack env context ref path w = (Ok true, w') ->
  nodesFound_ (self w') = (nodesFound_ (self w) + 1)%N /\
  variablesFound_ (self w') =
    (variablesFound_ (self w) + if readable env ref then 1 else 0)%N.
Proof.
  intros H.
  destruct (nodeFoundCallBack_walked env context ref path w) as (w1 & H1 & [_ Hn _ _]).
  destruct (nodeFoundCallBack_tallied env context ref path w) as (w2 & H2 & [Hv _ _]).
  assert (w1 = w') as -> by congruence. assert (w2 = w') as -> by congruence.
  split; [by rewrite Hn|].
  rewrite Hv, count_readable_cons. by destruct (readable env ref).
Qed.

Lemma visits_app env context found1 found2 w calls1 w1 calls2 w2 :
  visits env context found1 w calls1 w1 ->
  visits env context found2 w1 calls2 w2 ->
  visits env context (found1 ++ found2) w (calls1 ++ calls2) w2.
Proof.
  induction 1; intros H2; cbn [app].
  - done.
  - eapply visits_call; eauto.
  - eapply visits_traverse; eauto.
Qed.

Lemma visit_all_visits env context found w :
  exists calls w',
    visit_all (nodeFoundCallBack env context) found w = (Ok tt, w') /\
    visits env context found w calls w'.
Proof.
  revert w. induction found as [|[ref path] found IH]; intros w.
  - exists [], w. split; [done|constructor].
  - destruct (nodeFoundCallBack_walked env context ref path w) as (w1 & Heq & _).
    destruct (IH w1) as (calls & w2 & Heq2 & Hv).
    exists ((w, w1) :: calls), w2. split.
    + cbn [visit_all]. unfold bind. rewrite Heq. exact Heq2.
    + by eapply visits_call.
Qed.

Lemma traverse_roots_visits env context roots basePath maxDepth w :
  exists calls w',
    for_each roots
      (fun nodeID =>
         connection_traverse env nodeID (nodeFoundCallBack env context) basePath maxDepth) w
      = (Ok tt, w') /\
    visits env context (discovered_below env roots basePath maxDepth) w calls w'.
Proof.
  revert w. induction roots as [|root roots IH]; intros w.
  - exists [], w. split; [done|constructor].
  - destruct (visit_all_visits env context (discovered env root basePath maxDepth)
                (mkWorld (self w) (session w) (trace w ++ [EvTraverse root basePath maxDepth])))
      as (calls1 & w1 & Heq1 & Hv1).
    destruct (IH w1) as (calls2 & w2 & Heq2 & Hv2).
    exists (calls1 ++ calls2), w2. split.
    + cbn [for_each]. unfold bind at 1. unfold connection_traverse.
      unfold bind at 1. unfold emit at 1. rewrite Heq1. exact Heq2.
    + unfold discovered_below. cbn [fmap list_fmap concat].
      eapply visits_app; [|exact Hv2]. eapply visits_traverse. exact Hv1.
Qed.

Lemma visits_counts env context found w calls w' :
  visits env context found w calls w' ->
  length calls = length found /\
  nodesFound_ (self w') = (nodesFound_ (self w) + N.of_nat (length found))%N /\
  variablesFound_ (self w') =
    (variablesFound_ (self w) + N.of_nat (count_readable env found))%N /\
  forall k ref path before after,
    found !! k = Some (ref, path) -> calls !! k = Some (before, after) ->
    nodeFoundCallBack env context ref path before = (Ok true, after) /\
    nodesFound_ (self before) = (nodesFound_ (self w) + N.of_nat k)%N /\
    variablesFound_ (self before) =
      (variablesFound_ (self w) + N.of_nat (count_readable env (take k found)))%N.
Proof.
  induction 1 as [w|ref path found w w1 calls w' Hcall Hrest IH
                 |root basePath maxDepth found w calls w' Hrest IH].
  - split; [done|]. split; [cbn; lia|]. split; [cbn; lia|]. by intros [|k].
  - destruct (nodeFoundCallBack_counts env context ref path w w1 Hcall) as (Hn & Hv).
    destruct IH as (Hlen & Hn' & Hv' & Hk).
    split; [by cbn; rewrite Hlen|].
    split; [rewrite Hn', Hn; cbn [length]; lia|].
    split.
    { rewrite Hv', Hv, count_readable_cons. destruct (readable env ref); lia. }
    intros [|k] ref' path' before after Hf Hc.
    + cbn in Hf, Hc. simplify_eq. split; [done|]. cbn. split; lia.
    + cbn in Hf, Hc. destruct (Hk k ref' path' before after Hf Hc) as (Hcall' & Hbn & Hbv).
      split; [done|]. rewrite Hbn, Hbv, Hn, Hv. cbn [take]. rewrite count_readable_cons.
      split; destruct (readable env ref); lia.
  - exact IH.
Qed.

(** C7 (as stated, refuted).  On a server where converting the value
    fails for every variable, so that no extraction succeeds and every
    record goes to [Failure] without content, the invocation still ends
    with [variablesFound_] at 4: the four variables whose data was read. *)
Lemma C7_counted_without_extraction_counterexample :
  let env := Plant.server [] ["t1"; "t2"; "t3"; "t4"] false in
  let w := Plant.scheduled_with env Plant.by_path in
  (forall name, nodeValue2String env (Plant.reading name) =
                  if Plant.among ["t1"; "t2"; "t3"; "t4"] name
                  then inl (mkExn "Data type is not supported") else inr "21.5") /\
  exists w',
    onTrigger env Plant.by_path w = (Ok tt, w') /\
    nodesFound_ (self w') = 5%N /\
    variablesFound_ (self w') = 4%N /\
    transfers (session w') =
      [(0%nat, Failure); (1%nat, Failure); (2%nat, Failure); (3%nat, Failure)] /\
    ff_content <$> flowfiles (session w') = [None; None; None; None].
Proof.
  cbv zeta. split.
  - intros name. cbn. by rewrite lookup_insert.
  - by_evaluation.
Qed.

(** C7 (amended).  An invocation that reaches its roots walks from a
    world in which both counters are 0 (the reset of [onTrigger]), and
    every call of the visitor in that walk adds exactly one to
    [nodesFound_], whatever the class of the reference, and adds one to
    [variablesFound_] exactly when the reference is a variable whose
    data could be read, whether or not its value converts and whether or
    not a record could be created.  So before and after the call for
    the [k]-th reference [nodesFound_] is [k] and [k + 1],
    [variablesFound_] is the number of readable variables among the
    references visited so far, and [variablesFound_] does not exceed
    [nodesFound_]; the invocation ends with the counts of the whole
    walk.  Whichever way an invocation ends, the bound holds at its end
    when it held before or when the invocation got to reset the
    counters. *)
Theorem C7_variablesFound_le_nodesFound env context :
  (forall w,
     reaches_roots env w ->
     let found :=
       discovered_below env (trigger_roots env (self w)) (trigger_label (self w))
         (maxDepth_ (self w)) in
     exists w1 calls w2 w',
       onTrigger env context w = (Ok tt, w') /\
       w' = released (conclude w2) /\
       visits env context found w1 calls w2 /\
       session w1 = session w /\
       (exists evs, trace w1 = trace w ++ evs /\ traverse_calls evs = [] /\ reads evs = []) /\
       nodesFound_ (self w1) = 0%N /\
       variablesFound_ (self w1) = 0%N /\
       length calls = length found /\
       (forall k ref path before after,
          found !! k = Some (ref, path) ->
          calls !! k = Some (before, after) ->
          nodeFoundCallBack env context ref path before = (Ok true, after) /\
          nodesFound_ (self before) = N.of_nat k /\
          variablesFound_ (self before) = N.of_nat (count_readable env (take k found)) /\
          nodesFound_ (self after) = (nodesFound_ (self before) + 1)%N /\
          variablesFound_ (self after) =
            (variablesFound_ (self before) + if readable env ref then 1 else 0)%N /\
          (variablesFound_ (self before) <= nodesFound_ (self before))%N /\
          (variablesFound_ (self after) <= nodesFound_ (self after))%N) /\
       nodesFound_ (self w') = N.of_nat (length found) /\
       variablesFound_ (self w') = N.of_nat (count_readable env found) /\
       (variablesFound_ (self w') <= nodesFound_ (self w'))%N) /\
  (forall w r w',
     onTrigger env context w = (r, w') ->
     (variablesFound_ (self w) <= nodesFound_ (self w))%N \/
     configOK_ (self w) = true /\ onTriggerMutex_ (self w) = false /\ reconnect env = true ->
     (variablesFound_ (self w') <= nodesFound_ (self w'))%N).
Proof.
  assert (Hle : forall found, (count_readable env found <= length found)%nat).
  { intros found. unfold count_readable.
    induction found as [|d found IH]; cbn; [done|].
    destruct (readable env d.1); cbn; lia. }
  assert (Hwalk : forall w,
    reaches_roots env w ->
    let found :=
      discovered_below env (trigger_roots env (self w)) (trigger_label (self w))
        (maxDepth_ (self w)) in
    exists w1 calls w2,
      onTrigger env context w = (Ok tt, released (conclude w2)) /\
      visits env context found w1 calls w2 /\
      session w1 = session w /\
      (exists evs, trace w1 = trace w ++ evs /\ traverse_calls evs = [] /\ reads evs = []) /\
      nodesFound_ (self w1) = 0%N /\
      variablesFound_ (self w1) = 0%N).
  { intros w Hreach found.
    destruct (reaches_roots_enters env w Hreach) as (w1 & Hin).
    destruct Hreach as (Hok & Hm & Hr & _ & _).
    destruct (onTrigger_locked_traverses env context (acquired w) _ _ w1 Hr Hin)
      as (w2 & Heq & _ & Hres).
    destruct (traverse_roots_visits env context (trigger_roots env (self w))
                (trigger_label (self w)) (maxDepth_ (self w)) w1)
      as (calls & w2' & Heq' & Hv).
    cbn [acquired self maxDepth_ set_onTriggerMutex] in Heq.
    assert (w2' = w2) as -> by congruence.
    destruct (enters_traversal_quiet _ _ _ _ _ Hin) as (evs & Ht & Hc & Hrd & _).
    apply enters_traversal_cache in Hin as (_ & _ & _ & _ & E5 & E6 & E7 & _).
    exists w1, calls, w2.
    split; [rewrite onTrigger_acquires by done; by rewrite Hres|].
    split; [exact Hv|]. split; [by rewrite E7|]. split; [|by rewrite E5, E6].
    exists (EvLog TRACE "FetchOPCProcessor::onTrigger" :: EvReconnect :: evs).
    rewrite Ht. unfold connected, acquired. cbn [trace]. rewrite <- !app_assoc. cbn.
    by rewrite Hc, Hrd. }
  split.
  - intros w Hreach found.
    destruct (Hwalk w Hreach) as (w1 & calls & w2 & Heq & Hv & Hs & Ht & Hn0 & Hv0).
    destruct (visits_counts env context _ _ _ _ Hv) as (Hlen & Hn & Hvar & Hk).
    subst found. set (found := discovered_below _ _ _ _) in *.
    exists w1, calls, w2, (released (conclude w2)).
    do 7 (split; [done|]). split; [exact Hlen|]. split.
    { intros k ref path before after Hf Hc.
      destruct (Hk k ref path before after Hf Hc) as (Hcall & Hbn & Hbv).
      destruct (nodeFoundCallBack_counts env context ref path before after Hcall)
        as (Han & Hav).
      pose proof (Hle (take k found)) as Hle'.
      pose proof (lookup_lt_Some _ _ _ Hf) as Hlt.
      rewrite length_take in Hle'.
      rewrite Hn0 in Hbn. rewrite Hv0 in Hbv.
      split; [done|]. split; [by rewrite Hbn|]. split; [by rewrite Hbv|].
      split; [done|]. split; [done|]. rewrite Han, Hav, Hbn, Hbv.
      split; destruct (readable env ref); lia. }
    unfold released, conclude. cbn [self nodesFound_ variablesFound_ set_onTriggerMutex].
    fields. rewrite Hn, Hvar, Hn0, Hv0. pose proof (Hle found).
    split; [lia|]. split; lia.
  - intros w r w' H Hpre.
    destruct (onTrigger_cases env context w)
      as [(Hok & Heq)|[(Hok & Hm & Heq)|[(Hok & Hm & Hr & Heq)
         |[(Hok & Hm & Hr & Ht & e & Hs & Heq)
          |[(Hok & Hm & Hr & Ht & Hc & sc & Hs & Hsc & Heq)|Hreach]]]]].
    + rewrite Heq in H. simplify_eq. cbn [self].
      destruct Hpre as [?|(? & _)]; [done|congruence].
    + rewrite Heq in H. simplify_eq. cbn [self].
      destruct Hpre as [?|(_ & ? & _)]; [done|congruence].
    + rewrite Heq in H. simplify_eq. cbn [self].
      destruct Hpre as [?|(_ & _ & ?)]; [done|congruence].
    + rewrite Heq in H. simplify_eq. cbn. lia.
    + rewrite Heq in H. simplify_eq. cbn. lia.
    + destruct (Hwalk w Hreach) as (w1 & calls & w2 & Heq & Hv & _ & _ & Hn0 & Hv0).
      destruct (visits_counts env context _ _ _ _ Hv) as (_ & Hn & Hvar & _).
      rewrite Heq in H. simplify_eq.
      unfold released, conclude. fields. rewrite Hn, Hvar, Hn0, Hv0.
      pose proof (Hle (discovered_below env (trigger_roots env (self w))
                         (trigger_label (self w)) (maxDepth_ (self w)))).
      lia.
Qed.

Lemma plant_mixed_reaches_roots :
  reaches_roots (Plant.server ["t2"] ["t3"] false)
    (Plant.scheduled_with (Plant.server ["t2"] ["t3"] false) Plant.by_path).
Proof.
  unfold reaches_roots. repeat split; try (vm_compute; reflexivity).
  - intros H. vm_compute in H. discriminate H.
  - intros _ _ sc H. vm_compute in H. discriminate H.
Defined.

Lemma C7_witness :
  let env := Plant.server ["t2"] ["t3"] false in
  let context := Plant.by_path in
  let w := Plant.scheduled_with env context in
  let found :=
    discovered_below env (trigger_roots env (self w)) (trigger_label (self w))
      (maxDepth_ (self w)) in
  exists w1 calls w2 w',
    onTrigger env context w = (Ok tt, w') /\
    w' = released (conclude w2) /\
    visits env context found w1 calls w2 /\
    session w1 = session w /\
    (exists evs, trace w1 = trace w ++ evs /\ traverse_calls evs = [] /\ reads evs = []) /\
    nodesFound_ (self w1) = 0%N /\
    variablesFound_ (self w1) = 0%N /\
    length calls = length found /\
    (forall k ref path before after,
       found !! k = Some (ref, path) ->
       calls !! k = Some (before, after) ->
       nodeFoundCallBack env context ref path before = (Ok true, after) /\
       nodesFound_ (self before) = N.of_nat k /\
       variablesFound_ (self before) = N.of_nat (count_readable env (take k found)) /\
       nodesFound_ (self after) = (nodesFound_ (self before) + 1)%N /\
       variablesFound_ (self after) =
         (variablesFound_ (self before) + if readable env ref then 1 else 0)%N /\
       (variablesFound_ (self before) <= nodesFound_ (self before))%N /\
       (variablesFound_ (self after) <= nodesFound_ (self after))%N) /\
    nodesFound_ (self w') = N.of_nat (length found) /\
    variablesFound_ (self w') = N.of_nat (count_readable env found) /\
    (variablesFound_ (self w') <= nodesFound_ (self w'))%N.
Proof.
  intros env context w.
  exact (proj1 (C7_variablesFound_le_nodesFound env context) w plant_mixed_reaches_roots).
Defined.

(** ** Scheduling, further *)

(** X1.  Whenever [onSchedule] leaves the configuration valid, the base
    class's set-up succeeded, the node id parses if the type in effect is
    [Int], and, if the type in effect is not [Path], the namespace index
    was obtained and stored. *)
Theorem schedule_valid_only_if env context w r w' :
  onSchedule env context w = (r, w') ->
  configOK_ (self w') = true ->
  base_onSchedule env context = true /\
  (idType_ (self w') = opc.Int -> exists n, Str.stoi (nodeID_ (self w')) = inr n) /\
  (idType_ (self w') <> opc.Path ->
   getProperty_int32 context (getName NameSpaceIndex) = Some (nameSpaceIdx_ (self w'))).
Proof. apply onSchedule_configured. Qed.

Lemma schedule_valid_only_if_witness :
  let env := Plant.server [] [] false in
  let w' := Plant.scheduled_with env Plant.by_int_no_index in
  base_onSchedule env Plant.by_int_no_index = true /\
  (idType_ (self w') = opc.Int -> exists n, Str.stoi (nodeID_ (self w')) = inr n) /\
  (idType_ (self w') <> opc.Path ->
   getProperty_int32 Plant.by_int_no_index (getName NameSpaceIndex)
     = Some (nameSpaceIdx_ (self w'))).
Proof.
  intros env w'.
  apply (schedule_valid_only_if env Plant.by_int_no_index Plant.start (Ok tt) w');
    vm_compute; reflexivity.
Defined.

(** X2.  When the base class's set-up fails, [onSchedule] stops there:
    the cache is cleared and the configuration is invalid, but no
    property is read, so node id, type, namespace index and depth keep
    their previous values. *)
Theorem schedule_stops_when_base_fails env context w :
  base_onSchedule env context = false ->
  onSchedule env context w =
    (Ok tt,
     mkWorld (set_configOK false (set_translatedNodeIDs [] (self w))) (session w)
       (trace w ++ [EvLog TRACE "FetchOPCProcessor::onSchedule"; EvBaseOnSchedule])).
Proof.
  intros H. unfold onSchedule. run_monad. fields. rewrite H. fields.
  by rewrite app_assoc_cons.
Qed.

Lemma schedule_stops_when_base_fails_witness :
  let env := mkCollab (fun _ => false) true (fun _ => inr []) (fun _ _ _ => [])
               (fun _ => inl (mkExn "")) (fun _ => inr "") (fun _ => None)
               (fun _ _ => None) (fun _ => "") in
  let w := Plant.scheduled_with (Plant.server [] [] false) Plant.by_int_no_index in
  onSchedule env Plant.by_path w =
    (Ok tt,
     mkWorld (set_configOK false (set_translatedNodeIDs [] (self w))) (session w)
       (trace w ++ [EvLog TRACE "FetchOPCProcessor::onSchedule"; EvBaseOnSchedule])).
Proof.
  intros env w. apply (schedule_stops_when_base_fails env Plant.by_path w). reflexivity.
Defined.

(** X3.  For a recognized type the verdict of [onSchedule] is exact: the
    configuration is valid if and only if the base class's set-up
    succeeded, the node id (the configured one, or the previous one when
    none is configured) parses in [Int] mode, and a namespace index is
    obtainable outside [Path] mode.  In [Path] mode neither the node id
    nor the index is looked at. *)
Theorem schedule_verdict_for_recognized_type env context w t :
  getProperty_string context (getName NodeIDType) = Some (type_name t) ->
  base_onSchedule env context = true ->
  let nodeID := default (nodeID_ (self w)) (getProperty_string context (getName NodeID)) in
  exists w',
    onSchedule env context w = (Ok tt, w') /\
    idType_ (self w') = t /\
    nodeID_ (self w') = nodeID /\
    maxDepth_ (self w') = default 0%N (getProperty_uint64 context (getName MaxDepth)) /\
    configOK_ (self w') =
      match t with
      | opc.Path => true
      | opc.Int =>
          parses nodeID &&
          bool_decide (is_Some (getProperty_int32 context (getName NameSpaceIndex)))
      | opc.String =>
          bool_decide (is_Some (getProperty_int32 context (getName NameSpaceIndex)))
      end.
Proof.
  intros Ht Hb nodeID. subst nodeID. unfold onSchedule, parses. run_monad. fields.
  rewrite Hb, Ht. fields.
  destruct (getProperty_string context (getName NodeID)) as [v|];
    destruct (getProperty_uint64 context (getName MaxDepth)) as [d|];
    destruct t; cbn -[Str.stoi Str.format];
    repeat (case_match; cbn -[Str.stoi Str.format]; simplify_eq);
    eexists; (split; [reflexivity|]); cbn; repeat split; try done;
    try (symmetry; apply bool_decide_eq_true; eauto);
    try (symmetry; apply bool_decide_eq_false; by intros [? ?]).
Qed.

Lemma schedule_verdict_for_recognized_type_witness :
  let env := Plant.server [] [] false in
  let context := Plant.without_index in
  exists w',
    onSchedule env context Plant.start = (Ok tt, w') /\
    idType_ (self w') = opc.Int /\
    nodeID_ (self w') = "42" /\
    maxDepth_ (self w') = 0%N /\
    configOK_ (self w') = false.
Proof.
  intros env context.
  destruct (schedule_verdict_for_recognized_type env context Plant.start opc.Int)
    as (w' & H1 & H2 & H3 & H4 & H5); [vm_compute; reflexivity..|].
  exists w'. split; [exact H1|]. split; [exact H2|]. split; [exact H3|].
  split; [exact H4|exact H5].
Defined.

Lemma onSchedule_quiet env context w r w' :
  onSchedule env context w = (r, w') ->
  session w' = session w /\
  nodesFound_ (self w') = nodesFound_ (self w) /\
  variablesFound_ (self w') = variablesFound_ (self w) /\
  onTriggerMutex_ (self w') = onTriggerMutex_ (self w) /\
  exists evs,
    trace w' = trace w ++ evs /\
    count is_yield evs = 0%nat /\ count is_reconnect evs = 0%nat /\
    count is_translate evs = 0%nat /\ traverse_calls evs = [] /\ reads evs = [].
Proof.
  unfold onSchedule. run_monad. fields. intros H.
  repeat (case_match; fields; simplify_eq); fields;
    (repeat (split; [done|]));
    eexists; (split; [rewrite <- ?app_assoc; cbn [app]; reflexivity|]); by cbn.
Qed.

(** X4.  [onSchedule] only settles the configuration: it leaves the
    session, both counters and the mutex as they were, and it never
    yields, connects, translates a path, starts a traversal or reads a
    node. *)
Theorem schedule_touches_configuration_only env context w :
  exists w' evs,
    onSchedule env context w = (Ok tt, w') /\
    session w' = session w /\
    nodesFound_ (self w') = nodesFound_ (self w) /\
    variablesFound_ (self w') = variablesFound_ (self w) /\
    onTriggerMutex_ (self w') = onTriggerMutex_ (self w) /\
    translatedNodeIDs_ (self w') = [] /\
    trace w' = trace w ++ evs /\
    count is_yield evs = 0%nat /\ count is_reconnect evs = 0%nat /\
    count is_translate evs = 0%nat /\ traverse_calls evs = [] /\ reads evs = [].
Proof.
  destruct (onSchedule_returns env context w) as (w' & Heq).
  destruct (onSchedule_quiet env context w _ _ Heq) as (H1 & H2 & H3 & H4 & evs & H5 & H6).
  exists w', evs. split; [done|]. repeat (split; [done|]).
  split; [by eapply onSchedule_clears_cache|]. done.
Qed.

Lemma onSchedule_self env context w :
  self (onSchedule env context w).2 = scheduled_self env context (self w).
Proof.
  unfold onSchedule, scheduled_self, scheduled_type, parses. run_monad. fields.
  destruct (self w) as [ok nid ns ty depth nodes vars cache mutex]. fields.
  destruct (base_onSchedule env context); fields; [|done].
  destruct (getProperty_string context (getName NodeID)) as [v|];
    destruct (getProperty_uint64 context (getName MaxDepth)) as [d|];
    destruct (getProperty_int32 context (getName NameSpaceIndex)) as [i|];
    cbn [default from_option id];
    (destruct (default "" (getProperty_string context (getName NodeIDType)) =? "String")%string;
     [|destruct (default "" (getProperty_string context (getName NodeIDType)) =? "Int")%string;
       [|destruct (default "" (getProperty_string context (getName NodeIDType)) =? "Path")%string]]);
    fields;
    repeat (case_match; fields; simplify_eq);
    cbn -[Str.stoi Str.format] in *; try congruence; try reflexivity;
    repeat case_bool_decide; try done; cbn -[Str.stoi]; try congruence.
Qed.

Lemma scheduled_self_idempotent env context p :
  scheduled_self env context (scheduled_self env context p) = scheduled_self env context p.
Proof.
  unfold scheduled_self, scheduled_type, parses.
  destruct p as [ok nid ns ty depth nodes vars cache mutex].
  destruct (base_onSchedule env context); [|done].
  destruct (getProperty_string context (getName NodeID)) as [v|];
    destruct (getProperty_uint64 context (getName MaxDepth)) as [d|];
    destruct (getProperty_int32 context (getName NameSpaceIndex)) as [i|];
    cbn [default from_option id];
    (destruct (default "" (getProperty_string context (getName NodeIDType)) =? "String")%string;
     [|destruct (default "" (getProperty_string context (getName NodeIDType)) =? "Int")%string;
       [|destruct (default "" (getProperty_string context (getName NodeIDType)) =? "Path")%string]]);
    fields;
    repeat (case_match; fields; simplify_eq);
    repeat case_bool_decide; cbn -[Str.stoi] in *; try congruence; try done.
Qed.

(** X5.  Rescheduling with unchanged settings changes nothing: a second
    [onSchedule] with the same context and the same answer of the base
    class leaves the processor and the session exactly as the first one
    did. *)
Theorem reschedule_is_idempotent env context w :
  let w1 := (onSchedule env context w).2 in
  let w2 := (onSchedule env context w1).2 in
  self w2 = self w1 /\ session w2 = session w1.
Proof.
  cbv zeta. split.
  - rewrite !onSchedule_self. apply scheduled_self_idempotent.
  - destruct (onSchedule env context (onSchedule env context w).2) as [r w2] eqn:Heq.
    by apply onSchedule_quiet in Heq as (? & _).
Qed.

(** ** Invocations, further *)

(** X6.  On an invalid configuration every invocation of a run, whatever
    the collaborators would answer, only logs the error and yields: after
    [n] invocations the processor and the session are as they were and
    the trace has grown by [n] times the error and the yield, with no
    connection attempt in between. *)
Theorem unconfigured_run_only_yields envs context w :
  configOK_ (self w) = false ->
  triggers envs context w =
    mkWorld (self w) (session w)
      (trace w ++ concat (replicate (length envs) unconfigured_events)).
Proof.
  revert w. induction envs as [|env envs IH]; intros w H.
  - cbn. rewrite app_nil_r. by destruct w.
  - cbn [triggers length]. rewrite onTrigger_unconfigured by done.
    cbn [snd]. rewrite IH by done. cbn [self session trace].
    by rewrite <- app_assoc.
Qed.

Lemma unconfigured_run_only_yields_witness :
  let w := (onSchedule (Plant.server [] [] false) Plant.without_index Plant.start).2 in
  triggers [Plant.server [] [] false; Plant.single false] Plant.without_index w =
    mkWorld (self w) (session w)
      (trace w ++ concat (replicate 2 unconfigured_events)).
Proof.
  intros w.
  apply (unconfigured_run_only_yields
           [Plant.server [] [] false; Plant.single false] Plant.without_index w).
  vm_compute; reflexivity.
Defined.

(** X7.  When the connection cannot be established the invocation
    yields and stops: the counters are not reset, the cache, the session
    and the rest of the processor are as they were, the mutex is free
    again, and neither a translation nor a traversal was started. *)
Theorem disconnected_invocation_yields env context w :
  configOK_ (self w) = true ->
  onTriggerMutex_ (self w) = false ->
  reconnect env = false ->
  onTrigger env context w =
    (Ok tt,
     mkWorld (self w) (session w)
       (trace w ++ [EvLog TRACE "FetchOPCProcessor::onTrigger"; EvReconnect; EvYield])).
Proof.
  intros Hok Hm Hr.
  destruct (onTrigger_cases env context w)
    as [(H & _)|[(_ & H & _)|[(_ & _ & _ & H)|[(_ & _ & H & _)|[(_ & _ & H & _)|(_ & _ & H & _)]]]]];
    congruence.
Qed.

Lemma disconnected_invocation_yields_witness :
  let env := mkCollab (fun _ => true) false (fun _ => inr []) (fun _ _ _ => [])
               (fun _ => inl (mkExn "")) (fun _ => inr "") (fun _ => None)
               (fun _ _ => None) (fun _ => "") in
  let w := Plant.scheduled_with env Plant.by_path in
  onTrigger env Plant.by_path w =
    (Ok tt,
     mkWorld (self w) (session w)
       (trace w ++ [EvLog TRACE "FetchOPCProcessor::onTrigger"; EvReconnect; EvYield])).
Proof.
  intros env w.
  apply (disconnected_invocation_yields env Plant.by_path w); vm_compute; reflexivity.
Defined.

(** X8.  In [Path] mode with an empty cache, a translation that comes
    back with a bad status ends the invocation: the failure is logged
    with the path and the status name, the invocation yields, the cache
    stays empty (the next invocation translates again), no traversal is
    started and the session is untouched; the counters were reset to 0. *)
Theorem unresolved_path_yields env context w sc :
  configOK_ (self w) = true ->
  onTriggerMutex_ (self w) = false ->
  reconnect env = true ->
  idType_ (self w) = opc.Path ->
  translatedNodeIDs_ (self w) = [] ->
  translateBrowsePathsToNodeIdsRequest env (nodeID_ (self w)) = inl sc ->
  sc <> UA_STATUSCODE_GOOD ->
  onTrigger env context w =
    (Ok tt,
     mkWorld (start_walk (self w)) (session w)
       (trace w ++
        [EvLog TRACE "FetchOPCProcessor::onTrigger"; EvReconnect;
         EvTranslate (nodeID_ (self w));
         EvLog ERROR
           ("Failed to translate " +:+ Str.c_str (nodeID_ (self w)) +:+
            " to node id, no flow files will be generated (" +:+
            UA_StatusCode_name env sc +:+ ")");
         EvYield])).
Proof.
  intros Hok Hm Hr Ht Hc Hs Hsc.
  destruct (onTrigger_cases env context w)
    as [(H & _)|[(_ & H & _)|[(_ & _ & H & _)|[(_ & _ & _ & H & _)|[(_ & _ & _ & _ & _ & sc' & Hs' & _ & H)|(_ & _ & _ & _ & H)]]]]];
    try congruence.
  - assert (sc' = sc) as -> by congruence. rewrite H. reflexivity.
  - destruct Hsc. by apply (H Ht Hc).
Qed.

Lemma unresolved_path_yields_witness :
  let env := Plant.single false in
  let w := Plant.scheduled_with env Plant.by_path in
  onTrigger env Plant.by_path w =
    (Ok tt,
     mkWorld (start_walk (self w)) (session w)
       (trace w ++
        [EvLog TRACE "FetchOPCProcessor::onTrigger"; EvReconnect;
         EvTranslate (nodeID_ (self w));
         EvLog ERROR
           ("Failed to translate " +:+ Str.c_str (nodeID_ (self w)) +:+
            " to node id, no flow files will be generated (" +:+
            UA_StatusCode_name env Plant.UA_STATUSCODE_BADNODATAAVAILABLE +:+ ")");
         EvYield])).
Proof.
  intros env w.
  apply (unresolved_path_yields env Plant.by_path w Plant.UA_STATUSCODE_BADNODATAAVAILABLE);
    try (vm_compute; reflexivity).
  discriminate.
Defined.

Lemma count_conclusion_yield p :
  (count is_yield (conclusion p) <= 1)%nat /\
  (0 < count is_yield (conclusion p) ->
   nodesFound_ p = 0%N \/ variablesFound_ p = 0%N)%nat.
Proof.
  unfold conclusion.
  destruct (nodesFound_ p =? 0)%N eqn:Hn; [apply N.eqb_eq in Hn; cbn; split; [lia|auto]|].
  destruct (variablesFound_ p =? 0)%N eqn:Hv; [apply N.eqb_eq in Hv; cbn; split; [lia|auto]|].
  cbn. split; lia.
Qed.

(** X9.  Whatever way an invocation goes, it yields at most once,
    attempts at most one connection and issues at most one translation
    request; and an invocation that yields has routed no record. *)
Theorem invocation_yields_at_most_once env context w :
  exists r w' evs (emitted : nat),
    onTrigger env context w = (r, w') /\
    trace w' = trace w ++ evs /\
    (count is_yield evs <= 1)%nat /\
    (count is_reconnect evs <= 1)%nat /\
    (count is_translate evs <= 1)%nat /\
    length (transfers (session w')) = (length (transfers (session w)) + emitted)%nat /\
    (0 < count is_yield evs -> emitted = 0)%nat.
Proof.
  destruct (onTrigger_cases env context w)
    as [(_ & H)|[(_ & _ & H)|[(_ & _ & _ & H)|[(_ & _ & _ & _ & e & _ & H)|[(_ & _ & _ & _ & _ & sc & _ & _ & H)|Hreach]]]]].
  1-5: (eexists _, _, _, 0%nat; split; [exact H|]; cbn [trace session];
        split; [reflexivity|]; cbn; repeat split; lia).
  destruct (reaches_roots_enters env w Hreach) as (w1 & Hin).
  destruct Hreach as (Hok & Hm & Hr & _ & _).
  destruct (onTrigger_traverses_summary env context w _ _ _ Hok Hm Hr Hin)
    as (w' & evs & dv & dt & Heq & Htr & _ & Hrc & Hx & Hy & _ & Hn & Hv & Ht & Hle & Hk & _).
  destruct (count_conclusion_yield (self w')) as (Hy1 & Hy2).
  exists (Ok tt), w', (EvLog TRACE "FetchOPCProcessor::onTrigger" :: EvReconnect :: evs), dt.
  split; [done|]. split; [done|].
  change (count is_yield (EvLog TRACE "FetchOPCProcessor::onTrigger" :: EvReconnect :: evs))
    with (count is_yield evs).
  change (count is_reconnect (EvLog TRACE "FetchOPCProcessor::onTrigger" :: EvReconnect :: evs))
    with (S (count is_reconnect evs)).
  change (count is_translate (EvLog TRACE "FetchOPCProcessor::onTrigger" :: EvReconnect :: evs))
    with (count is_translate evs).
  rewrite Hy, Hrc, Hx. split; [done|]. split; [lia|].
  split; [by case_bool_decide; lia|]. split; [done|].
  intros Hpos. destruct (Hy2 Hpos) as [H0|H0]; lia.
Qed.

(** X10.  An invocation never changes the configuration it runs on:
    validity, node id, type, namespace index and depth are as before,
    whatever the outcome, and so is the mutex, which an invocation that
    took it has released, also when it ends by an exception. *)
Theorem invocation_keeps_configuration env context w r w' :
  onTrigger env context w = (r, w') ->
  configOK_ (self w') = configOK_ (self w) /\
  nodeID_ (self w') = nodeID_ (self w) /\
  idType_ (self w') = idType_ (self w) /\
  nameSpaceIdx_ (self w') = nameSpaceIdx_ (self w) /\
  maxDepth_ (self w') = maxDepth_ (self w) /\
  onTriggerMutex_ (self w') = onTriggerMutex_ (self w).
Proof.
  intros Heq.
  destruct (onTrigger_cases env context w)
    as [(_ & H)|[(_ & _ & H)|[(_ & _ & _ & H)|[(_ & _ & _ & _ & e & _ & H)|[(_ & _ & _ & _ & _ & sc & _ & _ & H)|Hreach]]]]].
  1-5: (rewrite H in Heq; simplify_eq; by cbn).
  destruct (onTrigger_tallied env context w Hreach)
    as (w1 & w2 & Hin & [(C1 & C2 & C3 & C4 & C5 & C6 & C7) _ _ _] & _ & H).
  destruct Hreach as (Hok & Hm & _).
  rewrite H in Heq. simplify_eq.
  assert (Hns : nameSpaceIdx_ (self w1) = nameSpaceIdx_ (self w) /\
                maxDepth_ (self w1) = maxDepth_ (self w)).
  { inversion Hin; subst; by cbn. }
  destruct Hns as (Hns & Hd).
  apply enters_traversal_cache in Hin as (E1 & E2 & E3 & E4 & _).
  unfold released, conclude, connected, acquired, start_walk in *. fields.
  rewrite C1, C2, C3, C4, C5, E1, E2, E3, Hns, Hd, Hm. done.
Qed.

Lemma invocation_keeps_configuration_witness :
  let env := Plant.server ["t2"] [] false in
  let w := Plant.scheduled_with env Plant.by_path in
  let w' := (onTrigger env Plant.by_path w).2 in
  configOK_ (self w') = configOK_ (self w) /\
  nodeID_ (self w') = nodeID_ (self w) /\
  idType_ (self w') = idType_ (self w) /\
  nameSpaceIdx_ (self w') = nameSpaceIdx_ (self w) /\
  maxDepth_ (self w') = maxDepth_ (self w) /\
  onTriggerMutex_ (self w') = onTriggerMutex_ (self w).
Proof.
  intros env w w'.
  apply (invocation_keeps_configuration env Plant.by_path w (Ok tt) w').
  vm_compute; reflexivity.
Defined.

(** ** Walks, further *)

(** X11.  An invocation that reaches its roots ends with exact counts:
    [nodesFound_] is the number of references discovered below all its
    roots, and [variablesFound_] is the number of those that are
    variables whose data could be read, whether or not a record could be
    created for them. *)
Theorem invocation_counts_exactly env context w :
  reaches_roots env w ->
  let found :=
    discovered_below env (trigger_roots env (self w)) (trigger_label (self w))
      (maxDepth_ (self w)) in
  exists w',
    onTrigger env context w = (Ok tt, w') /\
    nodesFound_ (self w') = N.of_nat (length found) /\
    variablesFound_ (self w') = N.of_nat (count_readable env found).
Proof.
  intros Hreach found.
  destruct (onTrigger_tallied env context w Hreach)
    as (w1 & w2 & Hin & [_ Hn _ _] & [Hv _ _] & H).
  apply enters_traversal_cache in Hin as (_ & _ & _ & _ & E5 & E6 & _).
  exists (released (conclude w2)). split; [done|].
  unfold released, conclude. fields. rewrite Hn, Hv, E5, E6. by cbn.
Qed.

Lemma plant_reaches_roots :
  reaches_roots (Plant.server ["t2"] [] false)
    (Plant.scheduled_with (Plant.server ["t2"] [] false) Plant.by_path).
Proof.
  unfold reaches_roots. repeat split; try (vm_compute; reflexivity).
  - intros H. vm_compute in H. discriminate H.
  - intros _ _ sc H. vm_compute in H. discriminate H.
Defined.

Lemma invocation_counts_exactly_witness :
  let env := Plant.server ["t2"] [] false in
  let w := Plant.scheduled_with env Plant.by_path in
  let found :=
    discovered_below env (trigger_roots env (self w)) (trigger_label (self w))
      (maxDepth_ (self w)) in
  exists w',
    onTrigger env Plant.by_path w = (Ok tt, w') /\
    nodesFound_ (self w') = N.of_nat (length found) /\
    variablesFound_ (self w') = N.of_nat (count_readable env found).
Proof.
  intros env w.
  exact (invocation_counts_exactly env Plant.by_path w plant_reaches_roots).
Defined.

(** X12.  An invocation that reaches its roots starts exactly one
    traversal per root, in order, each with the invocation's path label
    (the configured path in [Path] mode, the empty label otherwise) and
    the configured depth bound; and it requests the data of exactly the
    variable-class references discovered, each once, in discovery order:
    a reference of any other class is never read. *)
Theorem invocation_traverses_each_root_once env context w :
  reaches_roots env w ->
  let roots := trigger_roots env (self w) in
  let label := trigger_label (self w) in
  exists w' evs,
    onTrigger env context w = (Ok tt, w') /\
    trace w' = trace w ++ evs /\
    traverse_calls evs = (fun root => (root, label, maxDepth_ (self w))) <$> roots /\
    reads evs = variables_of (discovered_below env roots label (maxDepth_ (self w))).
Proof.
  intros Hreach roots label.
  destruct (onTrigger_tallied env context w Hreach)
    as (w1 & w2 & Hin & _ & [_ (evs & Htr & Hc & Hr) _] & H).
  destruct (enters_traversal_quiet _ _ _ _ _ Hin) as (evs0 & Htr0 & Hc0 & Hr0 & _).
  destruct (conclusion_silent (self w2)) as (Hc2 & Hr2 & _).
  exists (released (conclude w2)),
    (EvLog TRACE "FetchOPCProcessor::onTrigger" :: EvReconnect ::
       evs0 ++ evs ++ conclusion (self w2)).
  split; [done|]. split.
  { unfold released, conclude. fields. rewrite Htr, Htr0.
    unfold connected, acquired. fields. by rewrite <- !app_assoc. }
  cbn [traverse_calls reads].
  rewrite !traverse_calls_app, !reads_app, Hc0, Hr0, Hc, Hr, Hc2, Hr2.
  by rewrite !app_nil_r.
Qed.

Lemma invocation_traverses_each_root_once_witness :
  let env := Plant.server ["t2"] [] false in
  let w := Plant.scheduled_with env Plant.by_path in
  let roots := trigger_roots env (self w) in
  let label := trigger_label (self w) in
  exists w' evs,
    onTrigger env Plant.by_path w = (Ok tt, w') /\
    trace w' = trace w ++ evs /\
    traverse_calls evs = (fun root => (root, label, maxDepth_ (self w))) <$> roots /\
    reads evs = variables_of (discovered_below env roots label (maxDepth_ (self w))).
Proof.
  intros env w.
  exact (invocation_traverses_each_root_once env Plant.by_path w plant_reaches_roots).
Defined.

(** X13.  Every record the session created is routed exactly once, in
    the order of creation: if that holds of the session before an
    invocation, it holds after it, whatever the outcome; and scheduling
    does not touch the session. *)
Theorem every_record_is_routed_once env context w :
  routed_once (session w) ->
  routed_once (session (onTrigger env context w).2) /\
  routed_once (session (onSchedule env context w).2).
Proof.
  intros Hs. split.
  - destruct (onTrigger_cases env context w)
      as [(_ & H)|[(_ & _ & H)|[(_ & _ & _ & H)|[(_ & _ & _ & _ & e & _ & H)|[(_ & _ & _ & _ & _ & sc & _ & _ & H)|Hreach]]]]].
    1-5: (by rewrite H).
    destruct (onTrigger_tallied env context w Hreach)
      as (w1 & w2 & Hin & _ & [_ _ Hkeep] & H).
    apply enters_traversal_cache in Hin as (_ & _ & _ & _ & _ & _ & E7 & _).
    rewrite H. unfold released, conclude. cbn [snd session].
    apply Hkeep. by rewrite E7.
  - destruct (onSchedule env context w) as [r w'] eqn:Heq. cbn [snd].
    apply onSchedule_quiet in Heq as (-> & _). done.
Qed.

Lemma every_record_is_routed_once_witness :
  let env := Plant.server ["t2"] ["t3"] false in
  let w := Plant.scheduled_with env Plant.by_path in
  routed_once (session (onTrigger env Plant.by_path w).2) /\
  routed_once (session (onSchedule env Plant.by_path w).2).
Proof.
  intros env w.
  apply (every_record_is_routed_once env Plant.by_path w). vm_compute; reflexivity.
Defined.

(** X14.  Outside [Path] mode the path cache plays no part: an
    invocation in [Int] or [String] mode issues no translation request
    and leaves the cache as it was. *)
Theorem direct_identifier_never_translates env context w r w' :
  idType_ (self w) <> opc.Path ->
  onTrigger env context w = (r, w') ->
  translatedNodeIDs_ (self w') = translatedNodeIDs_ (self w) /\
  exists evs, trace w' = trace w ++ evs /\ count is_translate evs = 0%nat.
Proof.
  intros Ht Heq.
  destruct (onTrigger_cases env context w)
    as [(_ & H)|[(_ & _ & H)|[(_ & _ & _ & H)|[(_ & _ & _ & _ & e & _ & H)|[(_ & _ & _ & Hp & _)|Hreach]]]]].
  1-4: (rewrite H in Heq; simplify_eq; cbn [self trace start_walk set_nodesFound
          set_variablesFound translatedNodeIDs_]; split; [done|]; by eexists).
  { congruence. }
  destruct (reaches_roots_enters env w Hreach) as (w1 & Hin).
  destruct Hreach as (Hok & Hm & Hr & _ & _).
  destruct (onTrigger_traverses_summary env context w _ _ _ Hok Hm Hr Hin)
    as (w2 & evs & dv & dt & H & Htr & _ & _ & Hx & _ & Hcache & _).
  rewrite H in Heq. simplify_eq.
  rewrite bool_decide_false in Hx by (intros [? _]; done).
  split.
  - rewrite Hcache. inversion Hin; subst; cbn in *; congruence.
  - eexists. split; [exact Htr|]. exact Hx.
Qed.

Lemma direct_identifier_never_translates_witness :
  let env := Plant.server [] [] false in
  let w := Plant.scheduled_with env Plant.by_int_no_index in
  let w' := (onTrigger env Plant.by_int_no_index w).2 in
  translatedNodeIDs_ (self w') = translatedNodeIDs_ (self w) /\
  exists evs, trace w' = trace w ++ evs /\ count is_translate evs = 0%nat.
Proof.
  intros env w w'.
  apply (direct_identifier_never_translates env Plant.by_int_no_index w (Ok tt) w').
  - vm_compute. discriminate.
  - vm_compute; reflexivity.
Defined.

(** ** The record emitter, further *)

(** X15.  The record [OPCData2FlowFile] creates carries the node's
    attributes laid over the attributes the session gave the fresh
    record: a node attribute replaces an initial one of the same name,
    every other initial attribute stays.  The records created before are
    not altered, and the processor's fields are not touched. *)
Theorem emitter_lays_attributes_over_initial_ones env opcnode context w attrs0 :
  create env (length (flowfiles (session w))) = Some attrs0 ->
  exists w' record,
    OPCData2FlowFile env opcnode context w = (Ok tt, w') /\
    self w' = self w /\
    flowfiles (session w') = flowfiles (session w) ++ [record] /\
    ff_attributes record = nd_attributes opcnode ∪ attrs0 /\
    (forall k v, nd_attributes opcnode !! k = Some v -> ff_attributes record !! k = Some v) /\
    (forall k, nd_attributes opcnode !! k = None ->
               ff_attributes record !! k = attrs0 !! k).
Proof.
  intros Hc.
  destruct (OPCData2FlowFile_record env opcnode context w attrs0 Hc) as (evs & Heq & _).
  eexists _, _. split; [exact Heq|]. cbn [self session flowfiles ff_attributes].
  split; [done|]. split; [done|]. split; [done|]. split.
  - intros k v Hk. cbn [ff_attributes]. by apply lookup_union_Some_l.
  - intros k Hk. cbn [ff_attributes]. by rewrite lookup_union_r.
Qed.

Lemma emitter_lays_attributes_over_initial_ones_witness :
  let env := Plant.server [] [] false in
  exists w' record,
    OPCData2FlowFile env (Plant.reading "t1") Plant.by_path Plant.start = (Ok tt, w') /\
    self w' = self Plant.start /\
    flowfiles (session w') = flowfiles (session Plant.start) ++ [record] /\
    ff_attributes record = nd_attributes (Plant.reading "t1") ∪ ∅ /\
    (forall k v, nd_attributes (Plant.reading "t1") !! k = Some v ->
                 ff_attributes record !! k = Some v) /\
    (forall k, nd_attributes (Plant.reading "t1") !! k = None ->
               ff_attributes record !! k = (∅ : gmap string string) !! k).
Proof.
  intros env.
  apply (emitter_lays_attributes_over_initial_ones env (Plant.reading "t1") Plant.by_path
           Plant.start ∅).
  reflexivity.
Defined.

(** X16.  [OPCData2FlowFile] attempts at most one payload write per
    record: none for a node without value and none when the conversion
    of the value throws, one with the converted text otherwise.  The
    record's content is that text exactly when the write went through,
    and stays empty in every other case. *)
Theorem emitter_writes_the_converted_text env opcnode context w attrs0 :
  create env (length (flowfiles (session w))) = Some attrs0 ->
  let h := length (flowfiles (session w)) in
  exists w' record evs,
    OPCData2FlowFile env opcnode context w = (Ok tt, w') /\
    flowfiles (session w') = flowfiles (session w) ++ [record] /\
    trace w' = trace w ++ evs /\
    (data opcnode = [] -> writes evs = [] /\ ff_content record = None) /\
    (forall e, nodeValue2String env opcnode = inl e ->
               writes evs = [] /\ ff_content record = None) /\
    (forall payload,
       data opcnode <> [] -> nodeValue2String env opcnode = inr payload ->
       writes evs = [(h, payload)] /\
       ff_content record =
         match write env h payload with Some _ => None | None => Some payload end).
Proof.
  intros Hc h.
  destruct (OPCData2FlowFile_record env opcnode context w attrs0 Hc)
    as (evs & Heq & _ & Hw & _).
  eexists _, _, evs. split; [exact Heq|]. cbn [session flowfiles trace ff_content].
  split; [done|]. split; [done|]. cbn [ff_content].
  rewrite Hw. unfold writes_of, payload_of. fold h.
  split; [|split].
  - by intros ->.
  - intros e ->. by destruct (0 <? length (data opcnode))%nat.
  - intros payload Hne ->. destruct (data opcnode); [done|]. done.
Qed.

Lemma emitter_writes_the_converted_text_witness :
  let env := Plant.server [] [] false in
  let opcnode := Plant.reading "t1" in
  exists w' record evs,
    OPCData2FlowFile env opcnode Plant.by_path Plant.start = (Ok tt, w') /\
    flowfiles (session w') = flowfiles (session Plant.start) ++ [record] /\
    trace w' = trace Plant.start ++ evs /\
    (data opcnode = [] -> writes evs = [] /\ ff_content record = None) /\
    (forall e, nodeValue2String env opcnode = inl e ->
               writes evs = [] /\ ff_content record = None) /\
    (forall payload,
       data opcnode <> [] -> nodeValue2String env opcnode = inr payload ->
       writes evs = [(0%nat, payload)] /\
       ff_content record =
         match write env 0%nat payload with Some _ => None | None => Some payload end).
Proof.
  intros env opcnode.
  apply (emitter_writes_the_converted_text env opcnode Plant.by_path Plant.start ∅).
  reflexivity.
Defined.

(** X17.  The warning logged for a read failure names the node by its
    label (path, a slash, browse name) printed as a C string, so up to
    the label's first NUL, and never the reason: its format string holds
    one conversion only, so the exception's message is dropped, and two
    read failures of the same node with different messages leave the
    same world. *)
Theorem read_failure_warning_drops_the_reason env1 env2 context ref path w e1 e2 :
  is_variable (nodeClass ref) = true ->
  getNodeData env1 ref = inl e1 ->
  getNodeData env2 ref = inl e2 ->
  nodeFoundCallBack env1 context ref path w = nodeFoundCallBack env2 context ref path w /\
  exists w',
    nodeFoundCallBack env1 context ref path w = (Ok true, w') /\
    last (trace w') =
      Some (EvLog WARN ("Caught Exception while trying to get data from node &s: "
                        +:+ Str.c_str (path +:+ "/" +:+ browseName ref))).
Proof.
  intros Hv H1 H2.
  rewrite (nodeFoundCallBack_read_throws env1 context ref path w e1 Hv H1).
  rewrite (nodeFoundCallBack_read_throws env2 context ref path w e2 Hv H2).
  split; [done|]. eexists. split; [done|]. cbn [trace].
  rewrite <- app_assoc_cons. apply last_snoc.
Qed.

Lemma read_failure_warning_drops_the_reason_witness :
  let env1 := Plant.server [Plant.t_nul_x] [] false in
  let env2 := mkCollab (fun _ => true) true (fun _ => inr []) (fun _ _ _ => [])
                (fun _ => inl (mkExn "BadTimeout")) (fun _ => inr "") (fun _ => None)
                (fun _ _ => None) (fun _ => "") in
  let ref := Plant.variable Plant.t_nul_x in
  nodeFoundCallBack env1 Plant.by_path ref "/Sensors/Line1" Plant.start =
  nodeFoundCallBack env2 Plant.by_path ref "/Sensors/Line1" Plant.start /\
  exists w',
    nodeFoundCallBack env1 Plant.by_path ref "/Sensors/Line1" Plant.start = (Ok true, w') /\
    last (trace w') =
      Some (EvLog WARN ("Caught Exception while trying to get data from node &s: "
                        +:+ Str.c_str ("/Sensors/Line1" +:+ "/" +:+ browseName ref))).
Proof.
  intros env1 env2 ref.
  apply (read_failure_warning_drops_the_reason env1 env2 Plant.by_path ref "/Sensors/Line1"
           Plant.start (mkExn "BadNodeIdUnknown") (mkExn "BadTimeout"));
    reflexivity.
Defined.
